(** * Emotion tracker: classifier, entry store and daily report

    A shallow embedding of [main.py]: the keyword classifier [analyze], the
    SQLite entry store behind [db_exec], the report generator [save_report]
    and the actions of the [App] class that write to the store.

    Text is [string]; Python integers are [Z]; the ordered dictionary built
    by [analyze] is an association list in insertion order; the constant
    dictionaries [STRESS] and [WORDS] are finite maps; exceptions are a sum
    type threaded through a small state-and-error monad over the world (the
    database file, the open connections, the report directory, the clock). *)

From Stdlib Require Import ZArith Lia Ascii String.
From stdpp Require Import base option list sorting strings gmap pretty.

Local Open Scope Z_scope.

(** ** Python exceptions and results *)

Inductive exn :=
  | KeyError (key : string)
  | ValueError (msg : string)
  | IndexError (msg : string)
  | ZeroDivisionError (msg : string)
  | OperationalError (msg : string).

Inductive result (A : Type) :=
  | Ok (a : A)
  | Raise (e : exn).
Arguments Ok {A} a.
Arguments Raise {A} e.

Definition rbind {A B} (r : result A) (k : A -> result B) : result B :=
  match r with
  | Ok a => k a
  | Raise e => Raise e
  end.

(** ** The Python runtime

    [str.lower], [str.strip] and the iteration order of a [set] are the
    interpreter's, not the program's.  The program is modelled over any
    runtime that provides them; [set_order l] is the order in which
    [set(l)] is iterated, of which Python only promises that every member
    comes once. *)

Class Runtime := {
  lower : string -> string;
  strip : string -> string;
  set_order : list string -> list string;
  lower_empty : lower EmptyString = EmptyString;
  set_order_NoDup : forall l, NoDup (set_order l);
  set_order_elem : forall l x, x ∈ set_order l <-> x ∈ l
}.

(** ** Strings *)

(** [word in s]: [word] occurs in [s] as a contiguous substring. *)
Fixpoint contains (word s : string) : bool :=
  String.prefix word s ||
  match s with
  | EmptyString => false
  | String _ s' => contains word s'
  end.

(** The number of positions of [s] at which [word] starts. *)
Fixpoint occurrences (word s : string) : nat :=
  ((if String.prefix word s then 1 else 0) +
   match s with
   | EmptyString => 0
   | String _ s' => occurrences word s'
   end)%nat.

(** [s.split(sep)] for a separator of one character. *)
Fixpoint split (sep : ascii) (s : string) : list string :=
  match s with
  | EmptyString => [EmptyString]
  | String c s' =>
      if Ascii.eqb c sep then EmptyString :: split sep s'
      else match split sep s' with
           | h :: t => String c h :: t
           | [] => [String c EmptyString]
           end
  end.

(** [ch * n] *)
Fixpoint repeat_char (ch : ascii) (n : nat) : string :=
  match n with
  | O => EmptyString
  | S n' => String ch (repeat_char ch n')
  end.

(** An ASCII runtime: case folding of the letters A to Z, stripping of the
    ASCII white space, and a set iterated in order of first insertion. *)
Definition lower_char (c : ascii) : ascii :=
  let n := nat_of_ascii c in
  if ((65 <=? n) && (n <=? 90))%nat then ascii_of_nat (n + 32) else c.

Fixpoint lower_ascii (s : string) : string :=
  match s with
  | EmptyString => EmptyString
  | String c s' => String (lower_char c) (lower_ascii s')
  end.

Definition is_space (c : ascii) : bool :=
  let n := nat_of_ascii c in
  ((n =? 32) || ((9 <=? n) && (n <=? 13)))%nat.

Fixpoint lstrip (s : string) : string :=
  match s with
  | EmptyString => EmptyString
  | String c s' => if is_space c then lstrip s' else s
  end.

Fixpoint rstrip (s : string) : string :=
  match s with
  | EmptyString => EmptyString
  | String c s' =>
      match rstrip s' with
      | EmptyString => if is_space c then EmptyString else String c EmptyString
      | r => String c r
      end
  end.

Definition strip_ascii (s : string) : string := rstrip (lstrip s).

(** ** Configuration *)

Definition EMOTIONS : list string :=
  ["Energetic"; "Motivated"; "Neutral"; "Tired"; "Sad"; "Angry"; "Stressed";
   "Overwhelmed"].

Definition STRESS : gmap string Z :=
  list_to_map
    [("Energetic", 15); ("Motivated", 20); ("Neutral", 35); ("Tired", 55);
     ("Sad", 65); ("Angry", 70); ("Stressed", 80); ("Overwhelmed", 95)].

Definition WORDS : gmap string (list string) :=
  list_to_map
    [("Energetic", ["energetic"; "excited"; "pumped"; "awesome"; "amazing"]);
     ("Motivated", ["motivated"; "focused"; "goal"; "succeed"; "study"]);
     ("Neutral", ["okay"; "fine"; "normal"; "alright"; "meh"]);
     ("Tired", ["tired"; "exhausted"; "sleepy"; "sleep"; "fatigue"]);
     ("Sad", ["sad"; "unhappy"; "crying"; "lonely"; "miss"]);
     ("Angry", ["angry"; "mad"; "furious"; "hate"; "annoyed"]);
     ("Stressed", ["stressed"; "exam"; "deadline"; "pressure"; "worried"]);
     ("Overwhelmed", ["overwhelmed"; "cant"; "panic"; "help"; "breaking"])].

(** The three module constants the logic reads, as one value, so that an
    edited configuration can be compared with the one in the source. *)
Record config := {
  emotions : list string;
  stress : gmap string Z;
  words : gmap string (list string)
}.

Definition source_config : config :=
  {| emotions := EMOTIONS; stress := STRESS; words := WORDS |}.

(** [d[key]] on a constant dictionary. *)
Definition getitem {V} (d : gmap string V) (key : string) : result V :=
  match d !! key with
  | Some v => Ok v
  | None => Raise (KeyError key)
  end.

(** ** Ordered dictionaries, [sum] and [max] *)

(** [d[k] = v] on a dictionary that remembers insertion order: a present
    key keeps its place. *)
Fixpoint dict_set (k : string) (v : Z) (d : list (string * Z)) : list (string * Z) :=
  match d with
  | [] => [(k, v)]
  | (k', v') :: d' =>
      if String.eqb k' k then (k', v) :: d' else (k', v') :: dict_set k v d'
  end.

(** [d.get(k)] *)
Fixpoint dict_get (k : string) (d : list (string * Z)) : option Z :=
  match d with
  | [] => None
  | (k', v) :: d' => if String.eqb k' k then Some v else dict_get k d'
  end.

Definition dict_keys (d : list (string * Z)) : list string := map fst d.
Definition dict_values (d : list (string * Z)) : list Z := map snd d.

(** [sum(l)] *)
Definition py_sum (l : list Z) : Z := fold_left Z.add l 0.

(** The loop of [max(it, key=f)]: a later item replaces the current one
    only when its key is strictly greater. *)
Fixpoint max_loop {A} (key : A -> Z) (best : A) (l : list A) : A :=
  match l with
  | [] => best
  | x :: l' => max_loop key (if key best <? key x then x else best) l'
  end.

Definition max_key {A} (key : A -> Z) (l : list A) : result A :=
  match l with
  | [] => Raise (ValueError "max() arg is an empty sequence")
  | x :: l' => Ok (max_loop key x l')
  end.

(** [max(l)] on integers. *)
Definition py_max (l : list Z) : result Z := max_key id l.

(** ** The classifier *)

Section Classifier.
Context `{Runtime}.
Variable cfg : config.

(** [sum(1 for word in WORDS[emotion] if word in lower)] *)
Definition score (low : string) (ws : list string) : Z :=
  py_sum (map (fun _ => 1) (filter (fun word => contains word low = true) ws)).

(** The dictionary comprehension over [EMOTIONS]. *)
Fixpoint scores_from (low : string) (es : list string) (d : list (string * Z))
  : result (list (string * Z)) :=
  match es with
  | [] => Ok d
  | emotion :: es' =>
      rbind (getitem (words cfg) emotion) (fun ws =>
      scores_from low es' (dict_set emotion (score low ws) d))
  end.

Definition scores_get (scores : list (string * Z)) (k : string) : Z :=
  default 0 (dict_get k scores).

Definition analyze (text : string) : result (string * Z) :=
  let low := lower text in
  rbind (scores_from low (emotions cfg) []) (fun scores =>
  rbind (py_max (dict_values scores)) (fun top =>
  rbind (if 0 <? top then max_key (scores_get scores) (dict_keys scores)
         else Ok "Neutral") (fun best =>
  rbind (getitem (stress cfg) best) (fun s =>
  Ok (best, s))))).
End Classifier.

(** ** The entry store *)

(** A row of [entries]: the tuple [(id, text, emotion, stress, ts)]. *)
Record entry := {
  e_id : Z;
  e_text : string;
  e_emotion : string;
  e_stress : Z;
  e_ts : string
}.

#[export] Instance entry_eq_dec : EqDecision entry.
Proof. solve_decision. Defined.

(** The database file: the table [entries], absent until [init_db] has
    created it, and the AUTOINCREMENT counter, which [DELETE] leaves alone. *)
Record database := {
  table : option (list entry);
  seq : Z
}.

(** The wall clock: [CURRENT_TIMESTAMP], which SQLite gives in UTC as
    [YYYY-MM-DD HH:MM:SS], and [date.today()], the local date as
    [YYYY-MM-DD]. *)
Record clock := {
  utc_now : string;
  local_today : string
}.

(** The statements of the program, with their parameters. *)
Inductive query :=
  | CreateTable
  | InsertEntry (text emotion : string) (stress : Z)
  | CountByEmotion
  | SelectRecent
  | SelectToday (day : string)
  | DeleteAll.

(** What [fetchall] gives: rows of [entries], or the pairs of a GROUP BY. *)
Inductive fetched :=
  | Rows (l : list entry)
  | Groups (l : list (string * Z)).

Definition rows_of (r : fetched) : list entry :=
  match r with Rows l => l | Groups _ => [] end.

Definition groups_of (r : fetched) : list (string * Z) :=
  match r with Rows _ => [] | Groups l => l end.

(** [DATE(ts)] of a timestamp written by CURRENT_TIMESTAMP. *)
Definition DATE (ts : string) : string := String.substring 0 10 ts.

(** [ORDER BY ts DESC]: rows are put, in scan order, into an index on
    [(ts DESC, arrival)], so rows with equal [ts] stay in scan order. *)
Fixpoint insert_desc (x : entry) (l : list entry) : list entry :=
  match l with
  | [] => [x]
  | y :: l' =>
      if String.leb (e_ts y) (e_ts x) then x :: l
      else y :: insert_desc x l'
  end.

Definition order_by_ts_desc (rows : list entry) : list entry :=
  foldr insert_desc [] rows.

(** [GROUP BY emotion] with [COUNT( * )]: one pair per label, labels
    ascending. *)
Fixpoint bump (k : string) (g : list (string * Z)) : list (string * Z) :=
  match g with
  | [] => [(k, 1)]
  | (k', n) :: g' =>
      match String.compare k k' with
      | Eq => (k', n + 1) :: g'
      | Lt => (k, 1) :: g
      | Gt => (k', n) :: bump k g'
      end
  end.

Definition count_by_emotion (rows : list entry) : list (string * Z) :=
  fold_left (fun g e => bump (e_emotion e) g) rows [].

Definition no_such_table : exn := OperationalError "no such table: entries".

(** One statement against a database image at time [now]: the image after
    it and its result set. *)
Definition run_query (now : string) (q : query) (db : database)
  : result (database * fetched) :=
  match q, table db with
  | CreateTable, None => Ok ({| table := Some []; seq := seq db |}, Rows [])
  | CreateTable, Some _ => Ok (db, Rows [])
  | _, None => Raise no_such_table
  | InsertEntry text emotion stress, Some rows =>
      let row := {| e_id := seq db + 1; e_text := text; e_emotion := emotion;
                    e_stress := stress; e_ts := now |} in
      Ok ({| table := Some (rows ++ [row]); seq := seq db + 1 |}, Rows [])
  | CountByEmotion, Some rows => Ok (db, Groups (count_by_emotion rows))
  | SelectRecent, Some rows => Ok (db, Rows (take 50 (order_by_ts_desc rows)))
  | SelectToday day, Some rows =>
      Ok (db, Rows (filter (fun e => DATE (e_ts e) = day) rows))
  | DeleteAll, Some _ => Ok ({| table := Some []; seq := seq db |}, Rows [])
  end.

(** Statements that the sqlite3 module runs inside an implicit transaction,
    to be made durable by [commit]. *)
Definition is_dml (q : query) : bool :=
  match q with
  | InsertEntry _ _ _ | DeleteAll => true
  | _ => false
  end.

(** ** The world *)

Inductive event :=
  | Connect (c : nat)
  | Execute (c : nat) (q : query)
  | Commit (c : nat)
  | Close (c : nat).

(** [conns] holds the open connections, each with the image of its
    uncommitted transaction if it has one. *)
Record world := {
  disk : database;
  conns : gmap nat (option database);
  next_conn : nat;
  log : list event;
  now : clock;
  dirs : gset string;
  files : gmap string string;
  tab : nat;
  dark : bool
}.

Definition M (A : Type) : Type := world -> result A * world.

Definition ret {A} (a : A) : M A := fun w => (Ok a, w).

Definition raise {A} (e : exn) : M A := fun w => (Raise e, w).

Definition bind {A B} (m : M A) (k : A -> M B) : M B :=
  fun w =>
    match m w with
    | (Ok a, w') => k a w'
    | (Raise e, w') => (Raise e, w')
    end.

Definition lift {A} (r : result A) : M A := fun w => (r, w).

Definition get_world : M world := fun w => (Ok w, w).

Definition put_world (w : world) : M unit := fun _ => (Ok tt, w).

Notation "x <- m ;; k" := (bind m (fun x => k))
  (at level 100, m at next level, right associativity).
Notation "m ;;; k" := (bind m (fun _ => k))
  (at level 100, right associativity).

Definition with_disk (d : database) (w : world) : world :=
  {| disk := d; conns := conns w; next_conn := next_conn w; log := log w;
     now := now w; dirs := dirs w; files := files w; tab := tab w;
     dark := dark w |}.

Definition with_conns (cs : gmap nat (option database)) (w : world) : world :=
  {| disk := disk w; conns := cs; next_conn := next_conn w; log := log w;
     now := now w; dirs := dirs w; files := files w; tab := tab w;
     dark := dark w |}.

Definition emit (ev : event) (w : world) : world :=
  {| disk := disk w; conns := conns w; next_conn := next_conn w;
     log := log w ++ [ev]; now := now w; dirs := dirs w; files := files w;
     tab := tab w; dark := dark w |}.

(** [sqlite3.connect(DB)] *)
Definition sqlite3_connect : M nat := fun w =>
  let c := next_conn w in
  (Ok c,
   emit (Connect c)
     {| disk := disk w; conns := <[c := None]> (conns w);
        next_conn := S c; log := log w; now := now w; dirs := dirs w;
        files := files w; tab := tab w; dark := dark w |}).

(** The image a connection reads: its own transaction, else the file. *)
Definition image (c : nat) (w : world) : database :=
  match conns w !! c with
  | Some (Some d) => d
  | _ => disk w
  end.

(** [conn.execute(query, params)], with the rows a [fetchall] would give. *)
Definition conn_execute (c : nat) (q : query) : M fetched := fun w =>
  let w1 := emit (Execute c q) w in
  match run_query (utc_now (now w)) q (image c w) with
  | Raise e => (Raise e, w1)
  | Ok (d, rows) =>
      (Ok rows,
       if is_dml q then with_conns (<[c := Some d]> (conns w1)) w1
       else match conns w !! c with
            | Some (Some _) => with_conns (<[c := Some d]> (conns w1)) w1
            | _ => with_disk d w1
            end)
  end.

(** [conn.commit()] *)
Definition conn_commit (c : nat) : M unit := fun w =>
  let w1 := emit (Commit c) w in
  (Ok tt,
   match conns w !! c with
   | Some (Some d) => with_disk d (with_conns (<[c := None]> (conns w1)) w1)
   | _ => w1
   end).

(** [conn.close()]: an uncommitted transaction is rolled back. *)
Definition conn_close (c : nat) : M unit := fun w =>
  let w1 := emit (Close c) w in
  (Ok tt, with_conns (delete c (conns w1)) w1).

Definition db_exec (q : query) (fetch : bool) : M (option fetched) :=
  conn <- sqlite3_connect ;;
  result <- conn_execute conn q ;;
  conn_commit conn ;;;
  conn_close conn ;;;
  ret (if fetch then Some result else None).

Definition fetched_rows (r : option fetched) : list entry :=
  match r with Some f => rows_of f | None => [] end.

Definition init_db : M unit :=
  db_exec CreateTable false ;;; ret tt.

Definition save_entry (text emotion : string) (stress : Z) : M unit :=
  db_exec (InsertEntry text emotion stress) false ;;; ret tt.

Definition get_counts : M (gmap string Z) :=
  r <- db_exec CountByEmotion true ;;
  ret (list_to_map (match r with Some f => groups_of f | None => [] end)).

Definition get_all : M (list entry) :=
  r <- db_exec SelectRecent true ;; ret (fetched_rows r).

Definition date_today : M string := fun w => (Ok (local_today (now w)), w).

Definition get_today : M (list entry) :=
  day <- date_today ;;
  r <- db_exec (SelectToday day) true ;; ret (fetched_rows r).

Definition clear_all : M unit :=
  db_exec DeleteAll false ;;; ret tt.

(** ** The report *)

Definition REPORTS : string := "daily_reports".

Definition newline : string := String (ascii_of_nat 10) EmptyString.

(** [os.makedirs(path, exist_ok=True)] *)
Definition makedirs (path : string) : M unit := fun w =>
  (Ok tt,
   {| disk := disk w; conns := conns w; next_conn := next_conn w;
      log := log w; now := now w; dirs := {[path]} ∪ dirs w;
      files := files w; tab := tab w; dark := dark w |}).

(** [with open(path, "w") as f: f.write(content)] *)
Definition write_file (path content : string) : M unit := fun w =>
  (Ok tt,
   {| disk := disk w; conns := conns w; next_conn := next_conn w;
      log := log w; now := now w; dirs := dirs w;
      files := <[path := content]> (files w); tab := tab w; dark := dark w |}).

(** [a // b] *)
Definition floordiv (a b : Z) : result Z :=
  if b =? 0 then Raise (ZeroDivisionError "integer division or modulo by zero")
  else Ok (a / b).

(** [l.count(x)] *)
Fixpoint list_count (x : string) (l : list string) : Z :=
  match l with
  | [] => 0
  | y :: l' => (if String.eqb y x then 1 else 0) + list_count x l'
  end.

(** [e[4].split(' ')[1][:5] if ' ' in str(e[4]) else e[4]] *)
Definition time_label (ts : string) : string :=
  if contains " " ts
  then String.substring 0 5 (nth 1 (split " "%char ts) EmptyString)
  else ts.

(** The numbered lines of the report, counted from [i]. *)
Fixpoint report_lines (i : Z) (entries : list entry) : string :=
  match entries with
  | [] => EmptyString
  | e :: es =>
      pretty i +:+ ". [" +:+ time_label (e_ts e) +:+ "] " +:+ e_emotion e
      +:+ " (" +:+ pretty (e_stress e) +:+ ")" +:+ newline
      +:+ report_lines (i + 1) es
  end.

(** The head of the report, given the date, the number of entries, the
    average and the dominant emotion. *)
Definition report_header (today : string) (total avg : Z) (dom : string)
  : string :=
  "EMOTIONAL TONE & STRESS ANALYZER - " +:+ today +:+ newline
  +:+ repeat_char "="%char 50 +:+ newline
  +:+ "Total: " +:+ pretty total
  +:+ " | Avg: " +:+ pretty avg +:+ "/100 | Dominant: " +:+ dom
  +:+ newline +:+ newline.

Section Report.
Context `{Runtime}.

(** [sum(stresses)//len(stresses)] *)
Definition average (stresses : list Z) : result Z :=
  floordiv (py_sum stresses) (Z.of_nat (length stresses)).

(** [max(set(emotions), key=emotions.count)] *)
Definition dominant (labels : list string) : result string :=
  max_key (fun e => list_count e labels) (set_order labels).

Definition report_text (today : string) (entries : list entry)
  : result string :=
  let labels := map e_emotion entries in
  let stresses := map e_stress entries in
  rbind (average stresses) (fun avg =>
  rbind (dominant labels) (fun dom =>
  Ok (report_header today (Z.of_nat (length entries)) avg dom
      +:+ report_lines 1 entries))).

Definition report_path (today : string) : string :=
  REPORTS +:+ "/" +:+ "report_" +:+ today +:+ ".txt".

(** [None] when there is nothing to report, [True] once the file is
    written. *)
Definition save_report : M (option bool) :=
  entries <- get_today ;;
  match entries with
  | [] => ret None
  | _ =>
      makedirs REPORTS ;;;
      today <- date_today ;;
      report <- lift (report_text today entries) ;;
      write_file (report_path today) report ;;;
      ret (Some true)
  end.
End Report.

(** ** The application *)

Definition set_tab (i : nat) : M unit := fun w =>
  (Ok tt,
   {| disk := disk w; conns := conns w; next_conn := next_conn w;
      log := log w; now := now w; dirs := dirs w; files := files w;
      tab := i; dark := dark w |}).

Definition flip_dark : M unit := fun w =>
  (Ok tt,
   {| disk := disk w; conns := conns w; next_conn := next_conn w;
      log := log w; now := now w; dirs := dirs w; files := files w;
      tab := tab w; dark := negb (dark w) |}).

Definition set_clock (clk : clock) (w : world) : world :=
  {| disk := disk w; conns := conns w; next_conn := next_conn w;
     log := log w; now := clk; dirs := dirs w; files := files w;
     tab := tab w; dark := dark w |}.

(** What the user does: a button with its argument, the content of the
    text box at the click, the answer to the confirmation dialog. *)
Inductive action :=
  | Quick (e : string)
  | AnalyzeQ (entered : string)
  | AnalyzeT (entered : string)
  | SaveR
  | Clear (yes : bool)
  | Toggle
  | Switch (i : nat).

Section App.
Context `{Runtime}.
Variable cfg : config.

(** Of the widget code only the reads of the store are kept. *)
Definition update_chart : M unit := get_counts ;;; ret tt.

Definition render_quick : M unit := update_chart.
Definition render_text : M unit := ret tt.
Definition render_analytics : M unit := get_counts ;;; ret tt.
Definition render_reports : M unit := get_all ;;; ret tt.

Definition build : M unit :=
  w <- get_world ;;
  match [render_quick; render_text; render_analytics; render_reports] !! tab w with
  | Some render => render
  | None => raise (IndexError "list index out of range")
  end.

Definition switch (i : nat) : M unit := set_tab i ;;; build.

Definition App_init : M unit := set_tab 0 ;;; init_db ;;; build.

Definition quick (e : string) : M unit :=
  s <- lift (getitem (stress cfg) e) ;;
  save_entry ("[Quick: " +:+ e +:+ "]") e s ;;;
  update_chart.

Definition analyze_q (entered : string) : M unit :=
  let text := strip entered in
  if decide (text = EmptyString) then ret tt
  else
    r <- lift (analyze cfg text) ;;
    save_entry text (fst r) (snd r) ;;;
    update_chart.

Definition analyze_t (entered : string) : M unit :=
  let text := strip entered in
  if decide (text = EmptyString) then ret tt
  else
    r <- lift (analyze cfg text) ;;
    save_entry text (fst r) (snd r).

Definition save_r : M unit := save_report ;;; ret tt.

Definition clear (yes : bool) : M unit :=
  if yes then clear_all ;;; (w <- get_world ;; switch (tab w)) else ret tt.

Definition toggle : M unit :=
  flip_dark ;;; (w <- get_world ;; switch (tab w)).

Definition act (a : action) : M unit :=
  match a with
  | Quick e => quick e
  | AnalyzeQ entered => analyze_q entered
  | AnalyzeT entered => analyze_t entered
  | SaveR => save_r
  | Clear yes => clear yes
  | Toggle => toggle
  | Switch i => switch i
  end.
End App.

(** One user action at clock reading [clk] under the configuration in
    force then.  An exception raised in a callback ends that callback; the
    main loop goes on with the world as the callback left it. *)
Definition step `{Runtime} (s : config * clock * action) (w : world) : world :=
  let '(cfg, clk, a) := s in snd (act cfg a (set_clock clk w)).

Definition run `{Runtime} (trace : list (config * clock * action)) (w : world)
  : world :=
  fold_left (fun w s => step s w) trace w.

(** A fresh installation: no database file content, nothing open. *)
Definition fresh (clk : clock) : world :=
  {| disk := {| table := None; seq := 0 |}; conns := ∅; next_conn := 0;
     log := []; now := clk; dirs := ∅; files := ∅; tab := 0; dark := false |}.

#[export] Program Instance ascii_runtime : Runtime :=
  {| lower := lower_ascii; strip := strip_ascii; set_order := remove_dups |}.
Next Obligation. reflexivity. Qed.
Next Obligation. apply NoDup_remove_dups. Qed.
Next Obligation. intros. apply elem_of_remove_dups. Qed.

(** A runtime that differs only in the order in which a set is iterated. *)
#[export] Program Instance reversed_set_runtime : Runtime | 10 :=
  {| lower := lower_ascii; strip := strip_ascii;
     set_order := fun l => reverse (remove_dups l) |}.
Next Obligation. reflexivity. Qed.
Next Obligation. intros. rewrite reverse_Permutation. apply NoDup_remove_dups. Qed.
Next Obligation. intros. rewrite elem_of_reverse. apply elem_of_remove_dups. Qed.

(** ** Vocabulary of the statements *)

(** [word] occurs in [s] as a contiguous substring. *)
Definition substring_of (word s : string) : Prop :=
  exists pre post, s = pre +:+ word +:+ post.

(** The number of entries of [ws] that occur in [low]. *)
Definition matched_entries (low : string) (ws : list string) : Z :=
  Z.of_nat (length (filter (fun w => (0 < occurrences w low)%nat) ws)).

Definition keyword_hits (cfg : config) (low e : string) : Z :=
  matched_entries low (default [] (words cfg !! e)).

(** Every entry of [ws] counted once if it occurs at all, however often. *)
Definition once_each (low : string) (ws : list string) : Z :=
  foldr (fun w acc => Z.min 1 (Z.of_nat (occurrences w low)) + acc) 0 ws.

(** No configured keyword occurs in [low]. *)
Definition keyword_free (cfg : config) (low : string) : Prop :=
  forall e ws w,
    e ∈ emotions cfg -> words cfg !! e = Some ws -> w ∈ ws ->
    ~ substring_of w low.

(** A configuration in which every emotion has its keywords and its stress
    score, as the note on adding an emotion asks, and [Neutral] has a
    score. *)
Definition well_formed (cfg : config) : Prop :=
  NoDup (emotions cfg) /\ emotions cfg <> [] /\
  Forall (fun e => is_Some (words cfg !! e) /\ is_Some (stress cfg !! e))
         (emotions cfg) /\
  is_Some (stress cfg !! "Neutral").

(** [b] is the first item of [l] whose key is the greatest. *)
Definition first_max {A} (f : A -> Z) (l : list A) (b : A) : Prop :=
  exists pre post,
    l = pre ++ b :: post /\
    (forall y, y ∈ pre -> f y < f b) /\
    (forall y, y ∈ post -> f y <= f b).

(** Two readings of "the label met first": the first label, in the order of
    the entries, among those of greatest count; and the label whose running
    count is the first to reach the greatest count [m]. *)
Definition first_seen_mode (labels : list string) : result string :=
  max_key (fun e => list_count e labels) labels.

Fixpoint first_to_reach (m : Z) (seen rest : list string) : option string :=
  match rest with
  | [] => None
  | x :: rest' =>
      if list_count x (x :: seen) =? m then Some x
      else first_to_reach m (x :: seen) rest'
  end.

(** The rows of the database file. *)
Definition stored (w : world) : list entry := default [] (table (disk w)).

(** A computation that leaves the database file as it found it. *)
Definition keeps_disk {A} (m : M A) : Prop :=
  forall w, disk (snd (m w)) = disk w.

(** [a] is not older than [b]. *)
Definition not_older (a b : entry) : Prop := String.le (e_ts b) (e_ts a).

(** The operations of the store. *)
Inductive store_op :=
  | OpRecord (text emotion : string) (stress : Z)
  | OpCounts
  | OpRecent
  | OpToday
  | OpClear.

Definition perform (op : store_op) : M unit :=
  match op with
  | OpRecord text emotion stress => save_entry text emotion stress
  | OpCounts => get_counts ;;; ret tt
  | OpRecent => get_all ;;; ret tt
  | OpToday => get_today ;;; ret tt
  | OpClear => clear_all
  end.

Definition statement (op : store_op) (w : world) : query :=
  match op with
  | OpRecord text emotion stress => InsertEntry text emotion stress
  | OpCounts => CountByEmotion
  | OpRecent => SelectRecent
  | OpToday => SelectToday (local_today (now w))
  | OpClear => DeleteAll
  end.

(** The world after a [db_exec] whose statement succeeded and left the
    image [d], and after one whose statement raised. *)
Definition committed (q : query) (d : database) (w : world) : world :=
  let c := next_conn w in
  {| disk := d; conns := delete c (conns w); next_conn := S c;
     log := log w ++ [Connect c; Execute c q; Commit c; Close c];
     now := now w; dirs := dirs w; files := files w; tab := tab w;
     dark := dark w |}.

Definition abandoned (q : query) (w : world) : world :=
  let c := next_conn w in
  {| disk := disk w; conns := <[c := None]> (conns w); next_conn := S c;
     log := log w ++ [Connect c; Execute c q];
     now := now w; dirs := dirs w; files := files w; tab := tab w;
     dark := dark w |}.

(** The row [r] was written strictly before the instant [t]. *)
Definition older_than (t : string) (r : entry) : Prop :=
  String.leb t (e_ts r) = false.

(** The configuration of the source after an edit of one stress score. *)
Definition edited_config : config :=
  {| emotions := EMOTIONS; stress := <["Sad" := 99]> STRESS; words := WORDS |}.

(** The actions that write an entry. *)
Definition creates (a : action) : Prop :=
  match a with
  | Quick _ | AnalyzeQ _ | AnalyzeT _ => True
  | _ => False
  end.

(** Clock readings: noon in a place on UTC, and 02:00 on 2 January in a
    place five and a half hours ahead of UTC. *)
Definition noon : clock :=
  {| utc_now := "2024-01-01 12:00:00"; local_today := "2024-01-01" |}.

Definition small_hours : clock :=
  {| utc_now := "2024-01-01 20:30:00"; local_today := "2024-01-02" |}.

Definition evening : clock :=
  {| utc_now := "2024-01-01 18:00:00"; local_today := "2024-01-01" |}.

(** ** The chart colours *)

Definition COLORS : gmap string string :=
  list_to_map
    [("Energetic", "#FF6B6B"); ("Motivated", "#4ECDC4"); ("Neutral", "#95A5A6");
     ("Tired", "#9B59B6"); ("Sad", "#3498DB"); ("Angry", "#E74C3C");
     ("Stressed", "#F39C12"); ("Overwhelmed", "#E91E63")].

(** [[COLORS[e] for e in data.keys()]], the colours of a chart. *)
Fixpoint chart_colors (keys : list string) : result (list string) :=
  match keys with
  | [] => Ok []
  | e :: keys' =>
      rbind (getitem COLORS e) (fun c =>
      rbind (chart_colors keys') (fun cs => Ok (c :: cs)))
  end.

(** ** Vocabulary of the further properties *)

(** The number of rows with the label [e]. *)
Definition label_count (e : string) (rows : list entry) : Z :=
  Z.of_nat (length (filter (fun r => e_emotion r = e) rows)).

(** Row ids grow along the table and none exceeds the AUTOINCREMENT
    counter. *)
Definition ids_ok (d : database) : Prop :=
  StronglySorted Z.lt (map e_id (default [] (table d))) /\
  Forall (fun r => e_id r <= seq d) (default [] (table d)).


(** The result is an exception of the database layer. *)
Definition db_error {A} (r : result A) : Prop :=
  exists msg, r = Raise (OperationalError msg).

(** Every character of [s] is ASCII white space. *)
Fixpoint all_space (s : string) : bool :=
  match s with
  | EmptyString => true
  | String c s' => is_space c && all_space s'
  end.

(** A property of the world that no statement, committed or failed, and no
    change of the window, the clock or the report directory breaks. *)
Record stable (P : world -> Prop) : Prop := {
  stable_commit : forall w q d f,
    P w -> run_query (utc_now (now w)) q (disk w) = Ok (d, f) ->
    P (committed q d w);
  stable_abandon : forall w q e,
    P w -> run_query (utc_now (now w)) q (disk w) = Raise e ->
    P (abandoned q w);
  stable_tab : forall w i, P w -> P (snd (set_tab i w));
  stable_dark : forall w, P w -> P (snd (flip_dark w));
  stable_dirs : forall w p, P w -> P (snd (makedirs p w));
  stable_files : forall w p c, P w -> P (snd (write_file p c w));
  stable_clock : forall w clk, P w -> P (set_clock clk w)
}.

Definition preserves {A} (P : world -> Prop) (m : M A) : Prop :=
  forall w, P w -> P (snd (m w)).

(** With the table in place the computation raises no database error and
    leaves the table in place. *)
Definition quiet {A} (m : M A) : Prop :=
  forall w, is_Some (table (disk w)) ->
    ~ db_error (fst (m w)) /\ is_Some (table (disk (snd (m w)))).

(** * Properties *)

(** ** Strings *)

Lemma prefix_app word s :
  String.prefix word s = true <-> exists post, s = word +:+ post.
Proof.
  revert s. induction word as [|a word IH]; intros s.
  - destruct s; simpl; split; eauto.
  - destruct s as [|b s]; simpl.
    + split; [done | intros [post Hp]; discriminate].
    + destruct (ascii_dec a b) as [->|Hne].
      * rewrite IH. split; intros [post Hp]; exists post.
        -- by rewrite Hp.
        -- by injection Hp.
      * split; [done | intros [post Hp]; injection Hp; intros; congruence].
Qed.

Lemma contains_spec word s : contains word s = true <-> substring_of word s.
Proof.
  unfold substring_of. induction s as [|c s IH]; cbn [contains].
  - rewrite orb_false_r, prefix_app. split.
    + intros [post Hp]. by exists EmptyString, post.
    + intros (pre & post & Hp).
      destruct pre; simpl in Hp; [by exists post | discriminate].
  - rewrite orb_true_iff, prefix_app, IH. split.
    + intros [[post Hp] | (pre & post & Hp)].
      * by exists EmptyString, post.
      * exists (String c pre), post. simpl. by rewrite Hp.
    + intros (pre & post & Hp). destruct pre as [|c' pre]; simpl in Hp.
      * left. by exists post.
      * right. injection Hp as -> Hp. by exists pre, post.
Qed.

Lemma occurrences_contains word s :
  (0 < occurrences word s)%nat <-> contains word s = true.
Proof.
  induction s as [|c s IH]; cbn [occurrences contains].
  - destruct (String.prefix word EmptyString); simpl; split; (lia || done).
  - destruct (String.prefix word (String c s)); simpl.
    + split; [done | lia].
    + exact IH.
Qed.

Lemma occurrences_pos word s :
  (0 < occurrences word s)%nat <-> substring_of word s.
Proof. by rewrite occurrences_contains, contains_spec. Qed.

(** ** [sum] and [max] *)

Lemma fold_left_add_ones {A} (l : list A) acc :
  fold_left Z.add (map (fun _ => 1) l) acc = acc + Z.of_nat (length l).
Proof.
  revert acc. induction l as [|x l IH]; intros acc; simpl; [lia|].
  rewrite IH. lia.
Qed.

Lemma py_sum_ones {A} (l : list A) :
  py_sum (map (fun _ => 1) l) = Z.of_nat (length l).
Proof. unfold py_sum. by rewrite fold_left_add_ones. Qed.

Lemma max_loop_first_max {A} (f : A -> Z) l : forall done cur rest,
  (forall y, y ∈ done -> f y < f cur) ->
  (forall y, y ∈ rest -> f y <= f cur) ->
  first_max f (done ++ cur :: rest ++ l) (max_loop f cur l).
Proof.
  induction l as [|x l IH]; intros done cur rest Hd Hr; simpl.
  - exists done, rest. by rewrite app_nil_r.
  - destruct (f cur <? f x) eqn:Hlt.
    + apply Z.ltb_lt in Hlt.
      specialize (IH (done ++ cur :: rest) x []).
      rewrite <- app_assoc in IH. simpl in IH.
      replace (done ++ cur :: rest ++ x :: l)
        with (done ++ cur :: rest ++ x :: [] ++ l) by done.
      apply IH.
      * intros y Hy. apply elem_of_app in Hy as [Hy|Hy].
        -- specialize (Hd y Hy). lia.
        -- apply elem_of_cons in Hy as [->|Hy]; [done|].
           specialize (Hr y Hy). lia.
      * intros y Hy. by apply elem_of_nil in Hy.
    + apply Z.ltb_ge in Hlt.
      specialize (IH done cur (rest ++ [x])).
      rewrite <- app_assoc in IH. simpl in IH. apply IH; [done|].
      intros y Hy. apply elem_of_app in Hy as [Hy|Hy]; [by apply Hr|].
      apply list_elem_of_singleton in Hy as ->. done.
Qed.

Lemma max_key_first_max {A} (f : A -> Z) x l :
  first_max f (x :: l) (max_loop f x l).
Proof.
  apply (max_loop_first_max f l [] x []); intros y Hy;
    by apply elem_of_nil in Hy.
Qed.

Lemma first_max_elem {A} (f : A -> Z) l b : first_max f l b -> b ∈ l.
Proof.
  intros (pre & post & -> & _). apply elem_of_app. right. by left.
Qed.

Lemma first_max_upper {A} (f : A -> Z) l b y :
  first_max f l b -> y ∈ l -> f y <= f b.
Proof.
  intros (pre & post & -> & Hpre & Hpost) Hy.
  apply elem_of_app in Hy as [Hy|Hy]; [specialize (Hpre y Hy); lia|].
  apply elem_of_cons in Hy as [->|Hy]; [lia | by apply Hpost].
Qed.

Lemma max_loop_ext {A} (f g : A -> Z) l : forall x,
  (forall y, y ∈ x :: l -> f y = g y) -> max_loop f x l = max_loop g x l.
Proof.
  induction l as [|z l IH]; intros x Hfg; simpl; [done|].
  rewrite (Hfg x), (Hfg z) by (repeat constructor).
  apply IH. intros y Hy. apply Hfg.
  apply elem_of_cons in Hy as [->|Hy].
  - destruct (g x <? g z); repeat constructor.
  - by do 2 right.
Qed.

Lemma max_loop_map {A} (g : A -> Z) l : forall x,
  max_loop id (g x) (map g l) = g (max_loop g x l).
Proof.
  induction l as [|z l IH]; intros x; simpl; [done|].
  change (id (g x) <? id (g z)) with (g x <? g z).
  destruct (g x <? g z); apply IH.
Qed.

(** ** The classifier *)

Lemma score_matched low ws : score low ws = matched_entries low ws.
Proof.
  unfold score, matched_entries. rewrite py_sum_ones. do 2 f_equal.
  apply list_filter_iff. intros w. symmetry. apply occurrences_contains.
Qed.

Lemma matched_entries_once_each low ws :
  matched_entries low ws = once_each low ws.
Proof.
  unfold matched_entries. induction ws as [|w ws IH]; [done|].
  cbn [once_each foldr]. fold (once_each low ws). rewrite <- IH.
  rewrite filter_cons. destruct (decide (0 < occurrences w low)%nat); simpl length; lia.
Qed.

Lemma matched_entries_bounds low ws :
  0 <= matched_entries low ws <= Z.of_nat (length ws).
Proof.
  unfold matched_entries. split; [lia|].
  apply inj_le, length_filter.
Qed.

Lemma dict_set_fresh k v d :
  k ∉ dict_keys d -> dict_set k v d = d ++ [(k, v)].
Proof.
  induction d as [|[k' v'] d IH]; simpl; intros Hk; [done|].
  apply not_elem_of_cons in Hk as [Hne Hk].
  destruct (String.eqb_spec k' k) as [->|_]; [done|].
  by rewrite IH.
Qed.

Lemma dict_get_map (g : string -> Z) es e :
  e ∈ es -> dict_get e (map (fun e => (e, g e)) es) = Some (g e).
Proof.
  induction es as [|x es IH]; intros He; [by apply elem_of_nil in He|].
  simpl. destruct (String.eqb_spec x e) as [->|Hne]; [done|].
  apply elem_of_cons in He as [->|He]; [done | by apply IH].
Qed.

Lemma dict_keys_map (g : string -> Z) es :
  dict_keys (map (fun e => (e, g e)) es) = es.
Proof. unfold dict_keys. induction es; simpl; congruence. Qed.

Lemma dict_values_map (g : string -> Z) es :
  dict_values (map (fun e => (e, g e)) es) = map g es.
Proof. unfold dict_values. induction es; simpl; congruence. Qed.

Lemma scores_from_ok cfg low es : forall d,
  NoDup es ->
  Forall (fun e => is_Some (words cfg !! e)) es ->
  (forall e, e ∈ es -> e ∉ dict_keys d) ->
  scores_from cfg low es d
  = Ok (d ++ map (fun e => (e, keyword_hits cfg low e)) es).
Proof.
  induction es as [|e es IH]; intros d Hnd Hws Hfresh; simpl.
  - by rewrite app_nil_r.
  - apply NoDup_cons in Hnd as [Hne Hnd].
    apply Forall_cons in Hws as [[ws Hw] Hws].
    unfold getitem. rewrite Hw. simpl.
    rewrite dict_set_fresh by (apply Hfresh; by left).
    rewrite IH; [| done | done |].
    + rewrite <- app_assoc. simpl. unfold keyword_hits at 2.
      rewrite Hw. simpl. by rewrite score_matched.
    + intros e' He'. unfold dict_keys. rewrite map_app. simpl.
      intros Hin. apply elem_of_app in Hin as [Hin|Hin].
      * by apply (Hfresh e'); [right|].
      * apply list_elem_of_singleton in Hin as ->. done.
Qed.

(** [analyze] in closed form: the first emotion of greatest count if that
    count is positive, else [Neutral]; then the lookup of its score. *)
Lemma analyze_eq `{Runtime} cfg text e0 es :
  well_formed cfg -> emotions cfg = e0 :: es ->
  analyze cfg text =
    let hits := keyword_hits cfg (lower text) in
    let b := max_loop hits e0 es in
    let best := if 0 <? hits b then b else "Neutral" in
    rbind (getitem (stress cfg) best) (fun s => Ok (best, s)).
Proof.
  intros (Hnd & _ & Hall & _) Hes. unfold analyze.
  rewrite scores_from_ok; [| done | | ].
  - rewrite Hes, app_nil_l. cbn [rbind].
    rewrite dict_values_map, dict_keys_map.
    set (tbl := map (fun e => (e, keyword_hits cfg (lower text) e)) (e0 :: es)).
    cbn [map py_max max_key rbind]. rewrite max_loop_map.
    rewrite (max_loop_ext (scores_get tbl) (keyword_hits cfg (lower text))).
    + cbv zeta. by destruct (0 <? _).
    + intros y Hy. unfold scores_get, tbl. by rewrite dict_get_map.
  - eapply Forall_impl; [exact Hall|]. by intros e [? _].
  - intros e _ Hin. by apply elem_of_nil in Hin.
Qed.

Lemma source_config_wf : well_formed source_config.
Proof.
  unfold well_formed. split; [|split; [|split]].
  - apply (bool_decide_unpack _). vm_compute. exact I.
  - discriminate.
  - unfold source_config, emotions, EMOTIONS.
    repeat (apply Forall_cons; split; [split; eexists; vm_compute; reflexivity|]).
    constructor.
  - eexists. vm_compute. reflexivity.
Defined.

Lemma keyword_free_intro cfg low :
  Forall (fun e => Forall (fun w => contains w low = false)
                          (default [] (words cfg !! e))) (emotions cfg) ->
  keyword_free cfg low.
Proof.
  intros Hall e ws w He Hws Hw Hsub.
  rewrite Forall_forall in Hall. specialize (Hall e He).
  rewrite Hws in Hall. simpl in Hall.
  rewrite Forall_forall in Hall. specialize (Hall w Hw).
  apply contains_spec in Hsub. congruence.
Qed.

Lemma keyword_free_hits cfg low e :
  keyword_free cfg low -> e ∈ emotions cfg -> keyword_hits cfg low e = 0.
Proof.
  intros Hfree He. unfold keyword_hits, matched_entries.
  destruct (words cfg !! e) as [ws|] eqn:Hws; simpl; [|done].
  destruct (filter _ ws) as [|x l] eqn:Hf; [done|]. exfalso.
  assert (Hx : x ∈ filter (fun w => (0 < occurrences w low)%nat) ws)
    by (rewrite Hf; left).
  apply list_elem_of_filter in Hx as [Hocc Hw].
  apply occurrences_pos in Hocc. by apply (Hfree e ws x).
Qed.

Lemma keyword_hits_nonneg cfg low e : 0 <= keyword_hits cfg low e.
Proof. unfold keyword_hits. apply matched_entries_bounds. Qed.

Lemma wf_stress cfg e :
  well_formed cfg -> e ∈ emotions cfg -> is_Some (stress cfg !! e).
Proof.
  intros (_ & _ & Hall & _) He. rewrite Forall_forall in Hall.
  by destruct (Hall e He).
Qed.

(** C1: when the greatest match count is positive and shared by several
    emotions, [analyze] returns the one that comes first in [EMOTIONS]
    among those that reach it, with that emotion's stress score. *)
Theorem analyze_tie_break `{Runtime} cfg text m e1 e2 :
  well_formed cfg ->
  (forall e, e ∈ emotions cfg -> keyword_hits cfg (lower text) e <= m) ->
  0 < m ->
  e1 ∈ emotions cfg -> e2 ∈ emotions cfg -> e1 <> e2 ->
  keyword_hits cfg (lower text) e1 = m ->
  keyword_hits cfg (lower text) e2 = m ->
  exists pre best post s,
    emotions cfg = pre ++ best :: post /\
    keyword_hits cfg (lower text) best = m /\
    (forall e, e ∈ pre -> keyword_hits cfg (lower text) e < m) /\
    stress cfg !! best = Some s /\
    analyze cfg text = Ok (best, s).
Proof.
  intros Hwf Hub Hpos He1 _ _ Hm1 _.
  destruct (emotions cfg) as [|e0 es] eqn:Hes; [by apply elem_of_nil in He1|].
  rewrite (analyze_eq cfg text e0 es Hwf Hes). cbv zeta.
  pose proof (max_key_first_max (keyword_hits cfg (lower text)) e0 es) as Hfm.
  set (b := max_loop (keyword_hits cfg (lower text)) e0 es) in *.
  assert (Hb : keyword_hits cfg (lower text) b = m).
  { pose proof (first_max_upper _ _ _ _ Hfm He1) as Hge.
    pose proof (Hub b (first_max_elem _ _ _ Hfm)) as Hle. lia. }
  destruct (wf_stress cfg b Hwf) as [s Hs].
  { rewrite Hes. by apply (first_max_elem _ _ _ Hfm). }
  rewrite Hb. destruct (Z.ltb_spec 0 m) as [_|]; [|lia].
  unfold getitem. rewrite Hs. simpl.
  destruct Hfm as (pre & post & Heq & Hpre & _).
  exists pre, b, post, s. repeat split; try done.
  intros e He. rewrite <- Hb. by apply Hpre.
Qed.

(** C2: [analyze] returns a result for every text; when no configured
    keyword occurs in the lower-cased text the result is [Neutral] with
    the score configured for it, which covers the empty text and is 35
    in the configuration of the source. *)
Theorem analyze_default `{Runtime} cfg text :
  well_formed cfg ->
  (exists best s, analyze cfg text = Ok (best, s) /\ stress cfg !! best = Some s) /\
  (keyword_free cfg (lower text) ->
   exists s, stress cfg !! "Neutral" = Some s /\
             analyze cfg text = Ok ("Neutral", s)) /\
  keyword_free source_config (lower EmptyString) /\
  analyze source_config EmptyString = Ok ("Neutral", 35).
Proof.
  intros Hwf. pose proof Hwf as (_ & Hne & _ & [sn Hsn]).
  destruct (emotions cfg) as [|e0 es] eqn:Hes; [done|].
  pose proof (max_key_first_max (keyword_hits cfg (lower text)) e0 es) as Hfm.
  split; [|split; [|split]].
  - rewrite (analyze_eq cfg text e0 es Hwf Hes). cbv zeta.
    set (b := max_loop (keyword_hits cfg (lower text)) e0 es) in *.
    destruct (0 <? keyword_hits cfg (lower text) b).
    + destruct (wf_stress cfg b Hwf) as [s Hs].
      { rewrite Hes. by apply (first_max_elem _ _ _ Hfm). }
      exists b, s. unfold getitem. by rewrite Hs.
    + exists "Neutral", sn. unfold getitem. by rewrite Hsn.
  - intros Hfree. exists sn. split; [done|].
    rewrite (analyze_eq cfg text e0 es Hwf Hes). cbv zeta.
    rewrite (keyword_free_hits cfg (lower text)); [| done |].
    + simpl. unfold getitem. by rewrite Hsn.
    + rewrite Hes. by apply (first_max_elem _ _ _ Hfm).
  - rewrite lower_empty. apply keyword_free_intro.
    apply (bool_decide_unpack _). vm_compute. exact I.
  - unfold analyze. rewrite lower_empty. vm_compute. reflexivity.
Qed.

(** C3: the count [analyze] keeps for an emotion is the number of that
    emotion's keyword entries that occur in the lower-cased text, an entry
    counting once however often it occurs, and the emotion returned has a
    greatest such count. *)
Theorem analyze_counts_entries `{Runtime} cfg text :
  well_formed cfg ->
  (exists scores,
     scores_from cfg (lower text) (emotions cfg) [] = Ok scores /\
     forall e, e ∈ emotions cfg ->
       dict_get e scores = Some (keyword_hits cfg (lower text) e)) /\
  (forall e ws, words cfg !! e = Some ws ->
     score (lower text) ws = keyword_hits cfg (lower text) e /\
     keyword_hits cfg (lower text) e = once_each (lower text) ws /\
     0 <= keyword_hits cfg (lower text) e <= Z.of_nat (length ws)) /\
  (forall w, Z.min 1 (Z.of_nat (occurrences w (lower text))) = 1
             <-> substring_of w (lower text)) /\
  (exists best s,
     analyze cfg text = Ok (best, s) /\
     forall e, e ∈ emotions cfg ->
       keyword_hits cfg (lower text) e <= keyword_hits cfg (lower text) best).
Proof.
  intros Hwf. pose proof Hwf as (Hnd & Hne & Hall & [sn Hsn]).
  split; [|split; [|split]].
  - eexists. split.
    + apply scores_from_ok; [done | | ].
      * eapply Forall_impl; [exact Hall|]. by intros e [? _].
      * intros e _ Hin. by apply elem_of_nil in Hin.
    + intros e He. rewrite app_nil_l. by apply dict_get_map.
  - intros e ws Hws. unfold keyword_hits. rewrite Hws. simpl.
    split; [apply score_matched|].
    split; [apply matched_entries_once_each | apply matched_entries_bounds].
  - intros w. rewrite <- occurrences_pos. lia.
  - destruct (emotions cfg) as [|e0 es] eqn:Hes; [done|].
    pose proof (max_key_first_max (keyword_hits cfg (lower text)) e0 es) as Hfm.
    rewrite (analyze_eq cfg text e0 es Hwf Hes). cbv zeta.
    set (b := max_loop (keyword_hits cfg (lower text)) e0 es) in *.
    destruct (Z.ltb_spec 0 (keyword_hits cfg (lower text) b)) as [Hpos|Hzero].
    + destruct (wf_stress cfg b Hwf) as [s Hs].
      { rewrite Hes. by apply (first_max_elem _ _ _ Hfm). }
      exists b, s. unfold getitem. rewrite Hs. split; [done|].
      intros e He. by apply (first_max_upper _ _ _ _ Hfm).
    + exists "Neutral", sn. unfold getitem. rewrite Hsn. split; [done|].
      intros e He. pose proof (first_max_upper _ _ _ _ Hfm He).
      pose proof (keyword_hits_nonneg cfg (lower text) "Neutral"). lia.
Qed.

Ltac by_evaluation :=
  first [ apply (bool_decide_unpack _); vm_compute; exact I
        | vm_compute; reflexivity
        | vm_compute; congruence ].

Example analyze_tired_and_sad :
  @analyze ascii_runtime source_config "Tired and SAD" = Ok ("Tired", 55).
Proof. vm_compute. reflexivity. Qed.

Example analyze_one_keyword :
  @analyze ascii_runtime source_config "I feel so tired today" = Ok ("Tired", 55).
Proof. vm_compute. reflexivity. Qed.

Example analyze_repeated_keyword :
  @analyze ascii_runtime source_config "sad sad sad, but pumped and excited"
  = Ok ("Energetic", 15).
Proof. vm_compute. reflexivity. Qed.

Lemma analyze_tie_break_witness :
  exists pre best post s,
    emotions source_config = pre ++ best :: post /\
    keyword_hits source_config (@lower ascii_runtime "Tired and SAD") best = 1 /\
    (forall e, e ∈ pre ->
       keyword_hits source_config (@lower ascii_runtime "Tired and SAD") e < 1) /\
    stress source_config !! best = Some s /\
    @analyze ascii_runtime source_config "Tired and SAD" = Ok (best, s).
Proof.
  apply (@analyze_tie_break ascii_runtime source_config "Tired and SAD" 1
           "Tired" "Sad").
  - exact source_config_wf.
  - apply Forall_forall. by_evaluation.
  - lia.
  - by_evaluation.
  - by_evaluation.
  - discriminate.
  - vm_compute. reflexivity.
  - vm_compute. reflexivity.
Defined.

Lemma analyze_default_witness :
  well_formed source_config /\
  keyword_free source_config (@lower ascii_runtime "xyz123") /\
  @analyze ascii_runtime source_config "xyz123" = Ok ("Neutral", 35).
Proof.
  assert (Hfree : keyword_free source_config (@lower ascii_runtime "xyz123")).
  { apply keyword_free_intro. by_evaluation. }
  split; [exact source_config_wf|]. split; [exact Hfree|].
  destruct (@analyze_default ascii_runtime source_config "xyz123"
              source_config_wf) as (_ & Hdef & _).
  destruct (Hdef Hfree) as (s & Hs & Ha). rewrite Ha.
  vm_compute in Hs. congruence.
Defined.

Lemma analyze_counts_entries_witness :
  exists best s,
    @analyze ascii_runtime source_config "sad sad sad" = Ok (best, s) /\
    forall e, e ∈ emotions source_config ->
      keyword_hits source_config (@lower ascii_runtime "sad sad sad") e
      <= keyword_hits source_config (@lower ascii_runtime "sad sad sad") best.
Proof.
  destruct (@analyze_counts_entries ascii_runtime source_config "sad sad sad"
              source_config_wf) as (_ & _ & _ & Hbest).
  exact Hbest.
Defined.

(** ** The store *)

Ltac proj := cbn [disk conns next_conn log now dirs files tab dark fst snd].

Lemma db_exec_ok q fetch w d rows :
  run_query (utc_now (now w)) q (disk w) = Ok (d, rows) ->
  db_exec q fetch w = (Ok (if fetch then Some rows else None), committed q d w).
Proof.
  intros Hrun.
  unfold db_exec, bind, sqlite3_connect, conn_execute, conn_commit,
    conn_close, ret, image, committed, emit, with_conns, with_disk.
  proj. rewrite lookup_insert_eq, Hrun.
  destruct (is_dml q); proj; rewrite lookup_insert_eq;
    proj; do 2 f_equal.
  - by rewrite !delete_insert_eq.
  - by rewrite <- !app_assoc.
  - by rewrite !delete_insert_eq.
  - by rewrite <- !app_assoc.
Qed.

Lemma db_exec_raise q fetch w e :
  run_query (utc_now (now w)) q (disk w) = Raise e ->
  db_exec q fetch w = (Raise e, abandoned q w).
Proof.
  intros Hrun.
  unfold db_exec, bind, sqlite3_connect, conn_execute, image, abandoned, emit.
  proj. rewrite lookup_insert_eq, Hrun. proj.
  do 2 f_equal. by rewrite <- !app_assoc.
Qed.

Lemma run_query_missing now q db :
  table db = None -> q <> CreateTable ->
  run_query now q db = Raise no_such_table.
Proof. intros Ht Hq. unfold run_query. rewrite Ht. by destruct q. Qed.

Lemma statement_not_create op w : statement op w <> CreateTable.
Proof. by destruct op. Qed.

Lemma bind_ok {A B} (m : M A) (k : A -> M B) w a w1 :
  m w = (Ok a, w1) -> bind m k w = k a w1.
Proof. intros Hm. unfold bind. by rewrite Hm. Qed.

Lemma bind_raise {A B} (m : M A) (k : A -> M B) w e w1 :
  m w = (Raise e, w1) -> bind m k w = (Raise e, w1).
Proof. intros Hm. unfold bind. by rewrite Hm. Qed.

(** Evaluation of a monadic computation bind by bind; [leaf] settles the
    calls of [db_exec]. *)
Ltac run_M leaf :=
  cbv beta;
  lazymatch goal with
  | |- bind _ _ _ = _ =>
      first [ erewrite bind_ok; cycle 1; [solve [run_M leaf] | run_M leaf]
            | erewrite bind_raise; cycle 1; [solve [run_M leaf] | reflexivity] ]
  | |- db_exec _ _ _ = _ => leaf
  | |- _ => reflexivity
  end.

Lemma perform_ok op w rows :
  table (disk w) = Some rows ->
  exists d f,
    run_query (utc_now (now w)) (statement op w) (disk w) = Ok (d, f) /\
    perform op w = (Ok tt, committed (statement op w) d w).
Proof.
  intros Ht.
  destruct op; cbn [perform statement];
    unfold save_entry, get_counts, get_all, get_today, clear_all;
    (eexists _, _; split; [unfold run_query; rewrite Ht; reflexivity|]);
    run_M ltac:(apply db_exec_ok; unfold run_query; rewrite Ht; reflexivity).
Qed.

Lemma perform_raise op w :
  table (disk w) = None ->
  perform op w = (Raise no_such_table, abandoned (statement op w) w).
Proof.
  intros Ht.
  destruct op; cbn [perform statement];
    unfold save_entry, get_counts, get_all, get_today, clear_all;
    run_M ltac:(apply db_exec_raise; by apply run_query_missing).
Qed.

(** C10, as amended: every store operation opens one connection and runs
    one statement on it; when the statement succeeds it commits and closes
    before returning, and when the statement raises, the exception leaves
    [db_exec] at once, with no commit and no close. *)
Theorem store_operation_connection (op : store_op) (w : world) :
  let c := next_conn w in
  let q := statement op w in
  let w' := snd (perform op w) in
  (is_Some (table (disk w)) ->
   fst (perform op w) = Ok tt /\
   log w' = log w ++ [Connect c; Execute c q; Commit c; Close c] /\
   conns w' = delete c (conns w)) /\
  (table (disk w) = None ->
   fst (perform op w) = Raise no_such_table /\
   log w' = log w ++ [Connect c; Execute c q] /\
   conns w' !! c = Some None /\
   disk w' = disk w).
Proof.
  cbv zeta. split.
  - intros [rows Ht]. destruct (perform_ok op w rows Ht) as (d & f & _ & ->).
    unfold committed. proj. done.
  - intros Ht. rewrite (perform_raise op w Ht). unfold abandoned. proj.
    by rewrite lookup_insert_eq.
Qed.

Lemma store_operation_connection_witness :
  let w := snd (init_db (fresh noon)) in
  let w' := snd (perform OpClear w) in
  fst (perform OpClear w) = Ok tt /\
  log w' = log w ++ [Connect 1; Execute 1 DeleteAll; Commit 1; Close 1] /\
  conns w' = delete 1%nat (conns w).
Proof.
  cbv zeta.
  apply (store_operation_connection OpClear (snd (init_db (fresh noon)))).
  eexists. vm_compute. reflexivity.
Defined.

(** C10, the claim as stated, refuted: on a database file without the
    table the INSERT raises, and [save_entry] returns with the connection
    still open, neither committed nor closed. *)
Lemma save_entry_error_keeps_connection :
  let r := save_entry "x" "Sad" 65 (fresh noon) in
  fst r = Raise no_such_table /\
  log (snd r) = [Connect 0; Execute 0 (InsertEntry "x" "Sad" 65)] /\
  conns (snd r) !! 0%nat = Some None.
Proof. vm_compute. done. Qed.

(** *** Reading and writing rows *)

Ltac with_table Ht :=
  run_M ltac:(apply db_exec_ok; unfold run_query; rewrite Ht; reflexivity).

Ltac without_table Ht :=
  run_M ltac:(apply db_exec_raise; by apply run_query_missing).

Lemma save_entry_ok text emotion stress w rows :
  table (disk w) = Some rows ->
  save_entry text emotion stress w =
    (Ok tt,
     committed (InsertEntry text emotion stress)
       {| table := Some (rows ++ [{| e_id := seq (disk w) + 1; e_text := text;
                                     e_emotion := emotion; e_stress := stress;
                                     e_ts := utc_now (now w) |}]);
          seq := seq (disk w) + 1 |} w).
Proof. intros Ht. unfold save_entry. with_table Ht. Qed.

Lemma save_entry_raise text emotion stress w :
  table (disk w) = None ->
  save_entry text emotion stress w =
    (Raise no_such_table, abandoned (InsertEntry text emotion stress) w).
Proof. intros Ht. unfold save_entry. without_table Ht. Qed.

Lemma get_all_ok w rows :
  table (disk w) = Some rows ->
  get_all w =
    (Ok (take 50 (order_by_ts_desc rows)), committed SelectRecent (disk w) w).
Proof. intros Ht. unfold get_all. with_table Ht. Qed.

Lemma get_all_raise w :
  table (disk w) = None ->
  get_all w = (Raise no_such_table, abandoned SelectRecent w).
Proof. intros Ht. unfold get_all. without_table Ht. Qed.

Lemma get_counts_ok w rows :
  table (disk w) = Some rows ->
  get_counts w =
    (Ok (list_to_map (count_by_emotion rows)),
     committed CountByEmotion (disk w) w).
Proof. intros Ht. unfold get_counts. with_table Ht. Qed.

Lemma get_counts_raise w :
  table (disk w) = None ->
  get_counts w = (Raise no_such_table, abandoned CountByEmotion w).
Proof. intros Ht. unfold get_counts. without_table Ht. Qed.

Lemma get_today_ok w rows :
  table (disk w) = Some rows ->
  get_today w =
    (Ok (filter (fun e => DATE (e_ts e) = local_today (now w)) rows),
     committed (SelectToday (local_today (now w))) (disk w) w).
Proof. intros Ht. unfold get_today. with_table Ht. Qed.

Lemma get_today_raise w :
  table (disk w) = None ->
  get_today w =
    (Raise no_such_table, abandoned (SelectToday (local_today (now w))) w).
Proof. intros Ht. unfold get_today. without_table Ht. Qed.

Lemma clear_all_ok w rows :
  table (disk w) = Some rows ->
  clear_all w =
    (Ok tt, committed DeleteAll {| table := Some []; seq := seq (disk w) |} w).
Proof. intros Ht. unfold clear_all. with_table Ht. Qed.

Lemma clear_all_raise w :
  table (disk w) = None ->
  clear_all w = (Raise no_such_table, abandoned DeleteAll w).
Proof. intros Ht. unfold clear_all. without_table Ht. Qed.

(** *** [ORDER BY ts DESC] *)

Lemma insert_desc_perm x l : insert_desc x l ≡ₚ x :: l.
Proof.
  induction l as [|y l IH]; simpl; [done|].
  destruct (String.leb (e_ts y) (e_ts x)); [done|].
  rewrite IH. apply Permutation_swap.
Qed.

Lemma order_by_ts_desc_perm rows : order_by_ts_desc rows ≡ₚ rows.
Proof.
  induction rows as [|x rows IH]; simpl; [done|].
  rewrite insert_desc_perm. by rewrite IH.
Qed.

Lemma insert_desc_sorted x l :
  StronglySorted not_older l -> StronglySorted not_older (insert_desc x l).
Proof.
  induction l as [|y l IH]; intros Hs; simpl.
  - repeat constructor.
  - pose proof Hs as Hs0.
    apply StronglySorted_cons in Hs as [Hall Hs].
    destruct (String.leb (e_ts y) (e_ts x)) eqn:Hle.
    + apply StronglySorted_cons. split; [|done].
      assert (Hxy : not_older x y) by (unfold not_older, String.le; by rewrite Hle).
      constructor; [done|].
      eapply Forall_impl; [exact Hall|]. intros z Hz.
      unfold not_older in *. by etrans.
    + apply StronglySorted_cons. split; [|by apply IH].
      rewrite insert_desc_perm. constructor; [|done].
      unfold not_older.
      destruct (total String.le (e_ts x) (e_ts y)) as [Hxy|Hyx]; [done|].
      unfold String.le in Hyx. by rewrite Hle in Hyx.
Qed.

Lemma order_by_ts_desc_sorted rows :
  StronglySorted not_older (order_by_ts_desc rows).
Proof.
  induction rows as [|x rows IH]; simpl; [constructor|].
  by apply insert_desc_sorted.
Qed.

Lemma take_sorted n (l : list entry) :
  StronglySorted not_older l -> StronglySorted not_older (take n l).
Proof.
  intros Hs. rewrite <- (take_drop n l) in Hs.
  by apply StronglySorted_app_1_l in Hs.
Qed.

Lemma order_by_ts_desc_newest x rows :
  Forall (older_than (e_ts x)) rows ->
  order_by_ts_desc (rows ++ [x]) = x :: order_by_ts_desc rows.
Proof.
  induction rows as [|r rows IH]; intros Hold; simpl; [done|].
  apply Forall_cons in Hold as [Hr Hold].
  rewrite (IH Hold). simpl. unfold older_than in Hr. by rewrite Hr.
Qed.

(** C4, as amended: [get_all] returns at most 50 rows, the newest 50 by
    timestamp, newest first; the query names no order among rows of equal
    timestamp; right after an entry is recorded it comes first whenever its
    timestamp is strictly later than that of every row already stored. *)
Theorem get_all_newest_first (w : world) (rows : list entry) :
  table (disk w) = Some rows ->
  exists l,
    fst (get_all w) = Ok l /\
    (length l <= 50)%nat /\
    StronglySorted not_older l /\
    (exists sorted,
       sorted ≡ₚ rows /\ StronglySorted not_older sorted /\
       l = take 50 sorted) /\
    forall text emotion stress,
      Forall (older_than (utc_now (now w))) rows ->
      exists l',
        fst ((save_entry text emotion stress ;;; get_all) w) = Ok l' /\
        head l' = Some {| e_id := seq (disk w) + 1; e_text := text;
                          e_emotion := emotion; e_stress := stress;
                          e_ts := utc_now (now w) |}.
Proof.
  intros Ht. exists (take 50 (order_by_ts_desc rows)).
  split; [by rewrite (get_all_ok w rows Ht)|].
  split; [rewrite length_take; lia|].
  split; [apply take_sorted, order_by_ts_desc_sorted|].
  split.
  - exists (order_by_ts_desc rows).
    split; [apply order_by_ts_desc_perm|].
    split; [apply order_by_ts_desc_sorted | done].
  - intros text emotion stress Hold.
    erewrite bind_ok by (by apply save_entry_ok).
    erewrite get_all_ok by reflexivity. eexists. split; [reflexivity|].
    rewrite order_by_ts_desc_newest by done. done.
Qed.

Lemma get_all_newest_first_witness :
  let w := set_clock evening
             (@run ascii_runtime [(source_config, noon, Quick "Sad")]
                (snd (App_init (fresh noon)))) in
  exists l',
    fst ((save_entry "so tired" "Tired" 55 ;;; get_all) w) = Ok l' /\
    head l' = Some {| e_id := 2; e_text := "so tired"; e_emotion := "Tired";
                      e_stress := 55; e_ts := "2024-01-01 18:00:00" |}.
Proof.
  cbv zeta.
  destruct (get_all_newest_first
              (set_clock evening
                 (@run ascii_runtime [(source_config, noon, Quick "Sad")]
                    (snd (App_init (fresh noon)))))
              [{| e_id := 1; e_text := "[Quick: Sad]"; e_emotion := "Sad";
                  e_stress := 65; e_ts := "2024-01-01 12:00:00" |}])
    as (l & _ & _ & _ & _ & Hnew).
  - vm_compute. reflexivity.
  - apply (Hnew "so tired" "Tired" 55).
    repeat constructor.
Defined.

(** C4, the claim as stated, refuted: two entries recorded within the same
    second come back oldest first, so the entry just recorded is not the
    first row of [get_all]. *)
Lemma get_all_same_second_oldest_first :
  let w := @run ascii_runtime
             [(source_config, noon, Quick "Sad");
              (source_config, noon, Quick "Tired")]
             (snd (App_init (fresh noon))) in
  fst (get_all w)
  = Ok [{| e_id := 1; e_text := "[Quick: Sad]"; e_emotion := "Sad";
           e_stress := 65; e_ts := "2024-01-01 12:00:00" |};
        {| e_id := 2; e_text := "[Quick: Tired]"; e_emotion := "Tired";
           e_stress := 55; e_ts := "2024-01-01 12:00:00" |}].
Proof. vm_compute. reflexivity. Qed.

(** C6, the code at the failing input: at 02:00 local time on 2 January,
    five and a half hours ahead of UTC, an entry is recorded and
    [get_today] is called at the same clock reading; the entry is stored
    with the UTC date 1 January and is not among today's entries. *)
Lemma get_today_misses_entry_of_today :
  let w := @run ascii_runtime [(source_config, small_hours, Quick "Sad")]
             (snd (App_init (fresh small_hours))) in
  stored w = [{| e_id := 1; e_text := "[Quick: Sad]"; e_emotion := "Sad";
                 e_stress := 65; e_ts := "2024-01-01 20:30:00" |}] /\
  now w = small_hours /\
  fst (get_today w) = Ok [].
Proof. vm_compute. done. Qed.

(** What [get_today] does return: the rows whose UTC date equals the local
    date, in the order of the table. *)
Lemma get_today_rows (w : world) (rows : list entry) :
  table (disk w) = Some rows ->
  fst (get_today w)
  = Ok (filter (fun e => DATE (e_ts e) = local_today (now w)) rows).
Proof. intros Ht. by rewrite (get_today_ok w rows Ht). Qed.

(** ** The report *)

Lemma fold_left_add_foldr l acc :
  fold_left Z.add l acc = acc + foldr Z.add 0 l.
Proof.
  revert acc. induction l as [|x l IH]; intros acc; simpl; [lia|].
  rewrite IH. lia.
Qed.

Lemma py_sum_foldr l : py_sum l = foldr Z.add 0 l.
Proof. unfold py_sum. rewrite fold_left_add_foldr. lia. Qed.

Lemma average_ok (l : list Z) :
  l <> [] -> average l = Ok (foldr Z.add 0 l / Z.of_nat (length l)).
Proof.
  intros Hne. unfold average, floordiv. rewrite py_sum_foldr.
  destruct (Z.eqb_spec (Z.of_nat (length l)) 0) as [Hz|_]; [|done].
  destruct l; [done | simpl in Hz; lia].
Qed.

Lemma list_count_nonneg x l : 0 <= list_count x l.
Proof.
  induction l as [|y l IH]; simpl; [lia|].
  destruct (String.eqb y x); lia.
Qed.

Lemma list_count_absent x l : x ∉ l -> list_count x l = 0.
Proof.
  induction l as [|y l IH]; simpl; intros Hx; [done|].
  apply not_elem_of_cons in Hx as [Hne Hx].
  destruct (String.eqb_spec y x) as [->|_]; [done|]. by rewrite IH.
Qed.

Lemma dominant_ok `{Runtime} (labels : list string) :
  labels <> [] ->
  exists d,
    dominant labels = Ok d /\
    d ∈ labels /\
    (forall e, list_count e labels <= list_count d labels) /\
    first_max (fun e => list_count e labels) (set_order labels) d.
Proof.
  intros Hne. unfold dominant.
  destruct (set_order labels) as [|x l] eqn:Hset.
  - destruct labels as [|y labels]; [done|].
    assert (Hy : y ∈ set_order (y :: labels)) by (apply set_order_elem; left).
    rewrite Hset in Hy. by apply elem_of_nil in Hy.
  - simpl. eexists. split; [reflexivity|].
    pose proof (max_key_first_max (fun e => list_count e labels) x l) as Hfm.
    set (d := max_loop _ x l) in *.
    assert (Hd : d ∈ labels).
    { apply set_order_elem. rewrite Hset. by apply (first_max_elem _ _ _ Hfm). }
    split; [done|]. split; [|done].
    intros e. destruct (decide (e ∈ labels)) as [He|He].
    + apply (first_max_upper _ _ _ _ Hfm). rewrite <- Hset.
      by apply set_order_elem.
    + rewrite (list_count_absent e labels He). apply list_count_nonneg.
Qed.

Lemma report_text_ok `{Runtime} today (entries : list entry) :
  entries <> [] ->
  exists avg d,
    average (map e_stress entries) = Ok avg /\
    dominant (map e_emotion entries) = Ok d /\
    report_text today entries
    = Ok (report_header today (Z.of_nat (length entries)) avg d
          +:+ report_lines 1 entries).
Proof.
  intros Hne.
  assert (Hs : map e_stress entries <> []) by (by destruct entries).
  assert (Hl : map e_emotion entries <> []) by (by destruct entries).
  destruct (dominant_ok (map e_emotion entries) Hl) as (d & Hd & _).
  eexists _, d. unfold report_text.
  rewrite (average_ok _ Hs), Hd. done.
Qed.

(** C5, as amended: the dominant emotion of the report is a label of
    today's entries of greatest count; among labels of equal count it is
    the one that the iteration of the set of labels yields first, and that
    order is not the order of the entries. *)
Theorem dominant_is_a_mode `{Runtime} (today : string) (entries : list entry) :
  entries <> [] ->
  exists avg d,
    report_text today entries
    = Ok (report_header today (Z.of_nat (length entries)) avg d
          +:+ report_lines 1 entries) /\
    dominant (map e_emotion entries) = Ok d /\
    d ∈ map e_emotion entries /\
    (forall e, list_count e (map e_emotion entries)
               <= list_count d (map e_emotion entries)) /\
    first_max (fun e => list_count e (map e_emotion entries))
              (set_order (map e_emotion entries)) d.
Proof.
  intros Hne.
  destruct (report_text_ok today entries Hne) as (avg & d & _ & Hd & Htext).
  assert (Hl : map e_emotion entries <> []) by (by destruct entries).
  destruct (dominant_ok (map e_emotion entries) Hl) as (d' & Hd' & Hin & Hmax & Hfm).
  assert (d' = d) as -> by congruence.
  by exists avg, d.
Qed.

(** C7: the average of the report is the floor of the sum of today's
    stress values divided by their number; 10 and 15 give 12. *)
Theorem average_is_floor `{Runtime} (today : string) (entries : list entry) :
  entries <> [] ->
  exists avg d,
    report_text today entries
    = Ok (report_header today (Z.of_nat (length entries)) avg d
          +:+ report_lines 1 entries) /\
    average (map e_stress entries) = Ok avg /\
    avg = foldr Z.add 0 (map e_stress entries) / Z.of_nat (length entries) /\
    Z.of_nat (length entries) * avg <= foldr Z.add 0 (map e_stress entries)
      < Z.of_nat (length entries) * (avg + 1) /\
    average [10; 15] = Ok 12.
Proof.
  intros Hne.
  destruct (report_text_ok today entries Hne) as (avg & d & Havg & _ & Htext).
  assert (Hs : map e_stress entries <> []) by (by destruct entries).
  rewrite (average_ok _ Hs), length_map in Havg.
  injection Havg as <-.
  exists (foldr Z.add 0 (map e_stress entries) / Z.of_nat (length entries)), d.
  split; [done|]. split; [by rewrite (average_ok _ Hs), length_map|].
  split; [done|]. split; [|done].
  assert (0 < Z.of_nat (length entries)) by (destruct entries; [done | simpl; lia]).
  split; [by apply Z.mul_div_le | by apply Z.mul_succ_div_gt].
Qed.

Lemma dominant_is_a_mode_witness :
  exists avg d,
    @report_text ascii_runtime "2024-01-01"
      [{| e_id := 1; e_text := "a"; e_emotion := "Sad"; e_stress := 65;
          e_ts := "2024-01-01 09:15:00" |};
       {| e_id := 2; e_text := "b"; e_emotion := "Tired"; e_stress := 55;
          e_ts := "2024-01-01 10:00:00" |};
       {| e_id := 3; e_text := "c"; e_emotion := "Tired"; e_stress := 55;
          e_ts := "2024-01-01 11:30:00" |}]
    = Ok (report_header "2024-01-01" 3 avg d
          +:+ "1. [09:15] Sad (65)" +:+ newline
          +:+ "2. [10:00] Tired (55)" +:+ newline
          +:+ "3. [11:30] Tired (55)" +:+ newline) /\
    d ∈ ["Sad"; "Tired"; "Tired"].
Proof.
  destruct (@dominant_is_a_mode ascii_runtime "2024-01-01"
    [{| e_id := 1; e_text := "a"; e_emotion := "Sad"; e_stress := 65;
        e_ts := "2024-01-01 09:15:00" |};
     {| e_id := 2; e_text := "b"; e_emotion := "Tired"; e_stress := 55;
        e_ts := "2024-01-01 10:00:00" |};
     {| e_id := 3; e_text := "c"; e_emotion := "Tired"; e_stress := 55;
        e_ts := "2024-01-01 11:30:00" |}])
    as (avg & d & Htext & _ & Hin & _).
  - discriminate.
  - exists avg, d. split; [exact Htext | exact Hin].
Defined.

(** C5, the claim as stated, refuted: with the labels [Sad] then [Tired],
    one entry each, [Sad] is the label met first on either reading, and
    under an iteration order of the set that yields [Tired] first the
    report names [Tired]. *)
Lemma dominant_not_first_seen :
  @dominant reversed_set_runtime ["Sad"; "Tired"] = Ok "Tired" /\
  first_seen_mode ["Sad"; "Tired"] = Ok "Sad" /\
  first_to_reach 1 [] ["Sad"; "Tired"] = Some "Sad" /\
  @report_text reversed_set_runtime "2024-01-01"
    [{| e_id := 1; e_text := "a"; e_emotion := "Sad"; e_stress := 65;
        e_ts := "2024-01-01 09:15:00" |};
     {| e_id := 2; e_text := "b"; e_emotion := "Tired"; e_stress := 55;
        e_ts := "2024-01-01 10:00:00" |}]
  = Ok (report_header "2024-01-01" 2 60 "Tired"
        +:+ "1. [09:15] Sad (65)" +:+ newline
        +:+ "2. [10:00] Tired (55)" +:+ newline).
Proof. vm_compute. done. Qed.

Lemma average_is_floor_witness :
  exists avg d,
    @report_text ascii_runtime "2024-01-01"
      [{| e_id := 1; e_text := "a"; e_emotion := "Energetic"; e_stress := 10;
          e_ts := "2024-01-01 09:15:00" |};
       {| e_id := 2; e_text := "b"; e_emotion := "Energetic"; e_stress := 15;
          e_ts := "2024-01-01 10:00:00" |}]
    = Ok (report_header "2024-01-01" 2 avg d
          +:+ "1. [09:15] Energetic (10)" +:+ newline
          +:+ "2. [10:00] Energetic (15)" +:+ newline) /\
    avg = 12.
Proof.
  destruct (@average_is_floor ascii_runtime "2024-01-01"
    [{| e_id := 1; e_text := "a"; e_emotion := "Energetic"; e_stress := 10;
        e_ts := "2024-01-01 09:15:00" |};
     {| e_id := 2; e_text := "b"; e_emotion := "Energetic"; e_stress := 15;
        e_ts := "2024-01-01 10:00:00" |}])
    as (avg & d & Htext & _ & Havg & _).
  - discriminate.
  - exists avg, d. split; [exact Htext | exact Havg].
Defined.

Lemma get_today_cases (w : world) :
  (exists rows,
     table (disk w) = Some rows /\
     get_today w =
       (Ok (filter (fun e => DATE (e_ts e) = local_today (now w)) rows),
        committed (SelectToday (local_today (now w))) (disk w) w)) \/
  (exists w1, get_today w = (Raise no_such_table, w1)).
Proof.
  destruct (table (disk w)) as [rows|] eqn:Ht.
  - left. exists rows. split; [done | by apply get_today_ok].
  - right. eexists. by apply get_today_raise.
Qed.

(** C8: when [get_today] returns no entry, [save_report] returns [None],
    raises nothing and leaves the files and directories as they were; when
    it returns at least one entry, [save_report] returns [True] and the
    report is in the file of the day. *)
Theorem save_report_outcomes `{Runtime} (w : world) :
  (fst (get_today w) = Ok [] ->
   fst (save_report w) = Ok None /\
   files (snd (save_report w)) = files w /\
   dirs (snd (save_report w)) = dirs w) /\
  (forall e es, fst (get_today w) = Ok (e :: es) ->
   exists text,
     report_text (local_today (now w)) (e :: es) = Ok text /\
     fst (save_report w) = Ok (Some true) /\
     files (snd (save_report w))
     = <[report_path (local_today (now w)) := text]> (files w) /\
     dirs (snd (save_report w)) = {[REPORTS]} ∪ dirs w).
Proof.
  split.
  - intros Hnone.
    destruct (get_today_cases w) as [(rows & Ht & Hg)|[w1 Hg]];
      rewrite Hg in Hnone; [|discriminate].
    injection Hnone as Hrows. unfold save_report.
    erewrite bind_ok by exact Hg. rewrite Hrows.
    unfold ret, committed. proj. done.
  - intros e es Hsome.
    destruct (get_today_cases w) as [(rows & Ht & Hg)|[w1 Hg]];
      rewrite Hg in Hsome; [|discriminate].
    injection Hsome as Hrows.
    destruct (report_text_ok (local_today (now w)) (e :: es)) as (avg & d & _ & _ & Htext);
      [done|].
    eexists. split; [exact Htext|]. unfold save_report.
    erewrite bind_ok by exact Hg. rewrite Hrows.
    unfold bind, makedirs, date_today, lift, write_file, ret, committed.
    proj. rewrite Htext. proj. done.
Qed.

Lemma save_report_outcomes_witness :
  let w := snd (App_init (fresh noon)) in
  @fst _ world (@save_report ascii_runtime w) = Ok None /\
  files (snd (@save_report ascii_runtime w)) = files w /\
  dirs (snd (@save_report ascii_runtime w)) = dirs w.
Proof.
  cbv zeta.
  apply (@save_report_outcomes ascii_runtime (snd (App_init (fresh noon)))).
  vm_compute. reflexivity.
Defined.

Example save_report_writes :
  let w := @run ascii_runtime
             [(source_config, noon, Quick "Energetic");
              (source_config, evening, AnalyzeQ "  Exam tomorrow, so worried  ");
              (source_config, evening, SaveR)]
             (snd (App_init (fresh noon))) in
  files w !! "daily_reports/report_2024-01-01.txt"
  = Some (report_header "2024-01-01" 2 47 "Energetic"
          +:+ "1. [12:00] Energetic (15)" +:+ newline
          +:+ "2. [18:00] Stressed (80)" +:+ newline).
Proof. vm_compute. reflexivity. Qed.

(** ** The application *)

Lemma keeps_bind {A B} (m : M A) (k : A -> M B) :
  keeps_disk m -> (forall a, keeps_disk (k a)) -> keeps_disk (bind m k).
Proof.
  intros Hm Hk w. unfold bind. specialize (Hm w).
  destruct (m w) as [[a|e] w1]; simpl in *; [|done].
  by rewrite Hk.
Qed.

Lemma keeps_after {A B} (m : M A) (k : A -> M B) w :
  (forall a, keeps_disk (k a)) ->
  disk (snd (bind m k w)) = disk (snd (m w)).
Proof.
  intros Hk. unfold bind. destruct (m w) as [[a|e] w1]; simpl; [|done].
  by rewrite Hk.
Qed.

Lemma keeps_ret {A} (a : A) : keeps_disk (ret a).
Proof. by intros w. Qed.

Lemma keeps_raise {A} e : keeps_disk (@raise A e).
Proof. by intros w. Qed.

Lemma keeps_lift {A} (r : result A) : keeps_disk (lift r).
Proof. by intros w. Qed.

Lemma keeps_get_world : keeps_disk get_world.
Proof. by intros w. Qed.

Lemma keeps_date_today : keeps_disk date_today.
Proof. by intros w. Qed.

Lemma keeps_set_tab i : keeps_disk (set_tab i).
Proof. by intros w. Qed.

Lemma keeps_flip_dark : keeps_disk flip_dark.
Proof. by intros w. Qed.

Lemma keeps_makedirs path : keeps_disk (makedirs path).
Proof. by intros w. Qed.

Lemma keeps_write_file path content : keeps_disk (write_file path content).
Proof. by intros w. Qed.

Lemma keeps_get_counts : keeps_disk get_counts.
Proof.
  intros w. destruct (table (disk w)) as [rows|] eqn:Ht.
  - by rewrite (get_counts_ok w rows Ht).
  - by rewrite (get_counts_raise w Ht).
Qed.

Lemma keeps_get_all : keeps_disk get_all.
Proof.
  intros w. destruct (table (disk w)) as [rows|] eqn:Ht.
  - by rewrite (get_all_ok w rows Ht).
  - by rewrite (get_all_raise w Ht).
Qed.

Lemma keeps_get_today : keeps_disk get_today.
Proof.
  intros w. destruct (table (disk w)) as [rows|] eqn:Ht.
  - by rewrite (get_today_ok w rows Ht).
  - by rewrite (get_today_raise w Ht).
Qed.

Create HintDb keeps discriminated.
#[export] Hint Resolve keeps_ret keeps_raise keeps_lift keeps_get_world
  keeps_date_today keeps_set_tab keeps_flip_dark keeps_makedirs
  keeps_write_file keeps_get_counts keeps_get_all keeps_get_today : keeps.

Ltac keeps :=
  repeat first [ progress eauto with keeps
               | apply keeps_bind; [| intros ?] ].

Lemma keeps_update_chart : keeps_disk update_chart.
Proof. unfold update_chart. keeps. Qed.

Lemma keeps_build : keeps_disk build.
Proof.
  unfold build. apply keeps_bind; [apply keeps_get_world|]. intros w0.
  destruct (tab w0) as [|[|[|[|n]]]]; simpl; auto with keeps.
  - apply keeps_update_chart.
  - unfold render_analytics. keeps.
  - unfold render_reports. keeps.
Qed.

Lemma keeps_switch i : keeps_disk (switch i).
Proof. unfold switch. apply keeps_bind; [auto with keeps|]. intros _. apply keeps_build. Qed.

Lemma keeps_save_report `{Runtime} : keeps_disk save_report.
Proof.
  unfold save_report. apply keeps_bind; [auto with keeps|].
  intros [|e es]; [auto with keeps|]. keeps.
Qed.

Lemma getitem_ok {V} (d : gmap string V) k v :
  getitem d k = Ok v -> d !! k = Some v.
Proof. unfold getitem. destruct (d !! k); congruence. Qed.

Lemma analyze_stress `{Runtime} cfg text e s :
  analyze cfg text = Ok (e, s) -> stress cfg !! e = Some s.
Proof.
  unfold analyze.
  destruct (scores_from cfg (lower text) (emotions cfg) []) as [scores|]; [|done].
  cbn [rbind]. destruct (py_max (dict_values scores)) as [top|]; [|done].
  cbn [rbind].
  destruct (if 0 <? top then _ else _) as [best|]; [|done].
  cbn [rbind]. destruct (getitem (stress cfg) best) as [s'|] eqn:Hg; [|done].
  cbn [rbind]. intros [= <- <-]. by apply getitem_ok.
Qed.

Lemma stored_disk w1 w2 : disk w1 = disk w2 -> stored w1 = stored w2.
Proof. unfold stored. by intros ->. Qed.

(** The rows after [save_entry]: one more, or, without the table, none. *)
Lemma save_entry_stored text emotion stress w :
  stored (snd (save_entry text emotion stress w)) = stored w \/
  stored (snd (save_entry text emotion stress w))
  = stored w ++ [{| e_id := seq (disk w) + 1; e_text := text;
                    e_emotion := emotion; e_stress := stress;
                    e_ts := utc_now (now w) |}].
Proof.
  destruct (table (disk w)) as [rows|] eqn:Ht.
  - right. rewrite (save_entry_ok _ _ _ w rows Ht).
    unfold stored, committed. proj. cbn [table]. by rewrite Ht.
  - left. by rewrite (save_entry_raise _ _ _ w Ht).
Qed.

Lemma clear_all_stored w : stored (snd (clear_all w)) = [].
Proof.
  destruct (table (disk w)) as [rows|] eqn:Ht.
  - by rewrite (clear_all_ok w rows Ht).
  - rewrite (clear_all_raise w Ht). unfold stored, abandoned. proj.
    by rewrite Ht.
Qed.

(** What one action does to the rows: nothing, or all are deleted, or one
    row is appended whose stress is the configured score of its emotion. *)
Lemma act_stored `{Runtime} cfg a w :
  stored (snd (act cfg a w)) = stored w \/
  stored (snd (act cfg a w)) = [] \/
  (creates a /\
   exists r, stored (snd (act cfg a w)) = stored w ++ [r] /\
             stress cfg !! e_emotion r = Some (e_stress r)).
Proof.
  destruct a as [e|entered|entered| |yes| |i]; cbn [act].
  - unfold quick. destruct (getitem (stress cfg) e) as [s|err] eqn:Hg.
    + erewrite bind_ok by reflexivity.
      rewrite (stored_disk _ _
                 (keeps_after (save_entry ("[Quick: " +:+ e +:+ "]") e s)
                    (fun _ => update_chart) w (fun _ => keeps_update_chart))).
      destruct (save_entry_stored ("[Quick: " +:+ e +:+ "]") e s w) as [->| ->];
        [by left|].
      right; right. split; [done|]. eexists. split; [reflexivity|].
      by apply getitem_ok.
    + erewrite bind_raise by reflexivity. by left.
  - unfold analyze_q. destruct (decide (strip entered = EmptyString)); [by left|].
    destruct (analyze cfg (strip entered)) as [[e s]|err] eqn:Ha.
    + erewrite bind_ok by reflexivity. cbn [fst snd].
      rewrite (stored_disk _ _
                 (keeps_after (save_entry (strip entered) e s)
                    (fun _ => update_chart) w (fun _ => keeps_update_chart))).
      destruct (save_entry_stored (strip entered) e s w) as [->| ->];
        [by left|].
      right; right. split; [done|]. eexists. split; [reflexivity|].
      by apply analyze_stress in Ha.
    + erewrite bind_raise by reflexivity. by left.
  - unfold analyze_t. destruct (decide (strip entered = EmptyString)); [by left|].
    destruct (analyze cfg (strip entered)) as [[e s]|err] eqn:Ha.
    + erewrite bind_ok by reflexivity. cbn [fst snd].
      destruct (save_entry_stored (strip entered) e s w) as [->| ->];
        [by left|].
      right; right. split; [done|]. eexists. split; [reflexivity|].
      by apply analyze_stress in Ha.
    + erewrite bind_raise by reflexivity. by left.
  - left. apply stored_disk. unfold save_r.
    apply keeps_bind; [apply keeps_save_report | auto with keeps].
  - destruct yes; cbn [clear]; [|by left].
    right; left.
    erewrite stored_disk; [apply (clear_all_stored w)|].
    apply keeps_after. intros _.
    apply keeps_bind; [auto with keeps|]. intros w0. apply keeps_switch.
  - left. apply stored_disk. unfold toggle.
    apply keeps_bind; [auto with keeps|]. intros _.
    apply keeps_bind; [auto with keeps|]. intros w0. apply keeps_switch.
  - left. apply stored_disk. apply keeps_switch.
Qed.

Lemma run_snoc `{Runtime} trace s w :
  run (trace ++ [s]) w = step s (run trace w).
Proof. unfold run. by rewrite fold_left_app. Qed.

Lemma step_stored `{Runtime} cfg clk a w :
  stored (step (cfg, clk, a) w) = stored w \/
  stored (step (cfg, clk, a) w) = [] \/
  (creates a /\
   exists r, stored (step (cfg, clk, a) w) = stored w ++ [r] /\
             stress cfg !! e_emotion r = Some (e_stress r)).
Proof. exact (act_stored cfg a (set_clock clk w)). Qed.

(** C9: whatever the user does and however the configuration is edited
    between actions, every stored row either was there from the start,
    unchanged, or was appended by a quick entry or an analysis whose
    configuration, at that moment, gave its emotion the stress it stores. *)
Theorem stored_stress_is_configured `{Runtime}
    (trace : list (config * clock * action)) (w : world) (r : entry) :
  r ∈ stored (run trace w) ->
  r ∈ stored w \/
  exists pre cfg clk a post,
    trace = pre ++ (cfg, clk, a) :: post /\
    creates a /\
    stored (run (pre ++ [(cfg, clk, a)]) w) = stored (run pre w) ++ [r] /\
    stress cfg !! e_emotion r = Some (e_stress r).
Proof.
  revert r. induction trace as [|[[cfg clk] a] trace IH] using rev_ind;
    intros r Hr; [by left|].
  rewrite run_snoc in Hr.
  assert (Hold : r ∈ stored (run trace w) ->
                 r ∈ stored w \/
                 exists pre cfg0 clk0 a0 post,
                   trace ++ [(cfg, clk, a)] = pre ++ (cfg0, clk0, a0) :: post /\
                   creates a0 /\
                   stored (run (pre ++ [(cfg0, clk0, a0)]) w)
                   = stored (run pre w) ++ [r] /\
                   stress cfg0 !! e_emotion r = Some (e_stress r)).
  { intros Hin.
    destruct (IH r Hin) as [|(pre & cfg0 & clk0 & a0 & post & -> & Hc & Hst & Hs)];
      [by left|].
    right. exists pre, cfg0, clk0, a0, (post ++ [(cfg, clk, a)]).
    by rewrite <- app_assoc. }
  destruct (step_stored cfg clk a (run trace w))
    as [Heq|[Heq|(Hc & r' & Heq & Hs)]]; rewrite Heq in Hr.
  - by apply Hold.
  - by apply elem_of_nil in Hr.
  - apply elem_of_app in Hr as [Hr|Hr]; [by apply Hold|].
    apply list_elem_of_singleton in Hr as ->.
    right. exists trace, cfg, clk, a, []. by rewrite run_snoc.
Qed.

Example history_survives_an_edit :
  stored (@run ascii_runtime
            [(source_config, noon, Quick "Sad");
             (edited_config, evening, AnalyzeQ "I am sad");
             (edited_config, evening, SaveR)]
            (snd (App_init (fresh noon))))
  = [{| e_id := 1; e_text := "[Quick: Sad]"; e_emotion := "Sad";
        e_stress := 65; e_ts := "2024-01-01 12:00:00" |};
     {| e_id := 2; e_text := "I am sad"; e_emotion := "Sad";
        e_stress := 99; e_ts := "2024-01-01 18:00:00" |}].
Proof. vm_compute. reflexivity. Qed.

Lemma stored_stress_is_configured_witness :
  let trace := [(source_config, noon, Quick "Sad");
                (edited_config, evening, AnalyzeQ "I am sad");
                (edited_config, evening, SaveR)] in
  let w := snd (App_init (fresh noon)) in
  let r := {| e_id := 1; e_text := "[Quick: Sad]"; e_emotion := "Sad";
              e_stress := 65; e_ts := "2024-01-01 12:00:00" |} in
  r ∈ stored w \/
  exists pre cfg clk a post,
    trace = pre ++ (cfg, clk, a) :: post /\
    creates a /\
    stored (@run ascii_runtime (pre ++ [(cfg, clk, a)]) w)
    = stored (@run ascii_runtime pre w) ++ [r] /\
    stress cfg !! e_emotion r = Some (e_stress r).
Proof.
  cbv zeta.
  apply (@stored_stress_is_configured ascii_runtime).
  apply (bool_decide_unpack _). vm_compute. exact I.
Defined.

(** * Further properties *)

(** ** The classifier *)

(** X1: an emotion whose count is positive and strictly greater than that
    of every other emotion is the one [analyze] returns, with its score. *)
Theorem analyze_unique_winner `{Runtime} cfg text e :
  well_formed cfg ->
  e ∈ emotions cfg ->
  0 < keyword_hits cfg (lower text) e ->
  (forall e', e' ∈ emotions cfg -> e' <> e ->
     keyword_hits cfg (lower text) e' < keyword_hits cfg (lower text) e) ->
  exists s, stress cfg !! e = Some s /\ analyze cfg text = Ok (e, s).
Proof.
  intros Hwf He Hpos Hlt.
  destruct (emotions cfg) as [|e0 es] eqn:Hes; [by apply elem_of_nil in He|].
  rewrite (analyze_eq cfg text e0 es Hwf Hes). cbv zeta.
  pose proof (max_key_first_max (keyword_hits cfg (lower text)) e0 es) as Hfm.
  set (b := max_loop (keyword_hits cfg (lower text)) e0 es) in *.
  assert (b = e) as ->.
  { destruct (decide (b = e)) as [|Hne]; [done|].
    pose proof (first_max_upper _ _ _ _ Hfm He).
    pose proof (Hlt b (first_max_elem _ _ _ Hfm) Hne). lia. }
  destruct (wf_stress cfg e Hwf) as [s Hs]; [by rewrite Hes|].
  exists s. split; [done|].
  destruct (Z.ltb_spec 0 (keyword_hits cfg (lower text) e)); [|lia].
  unfold getitem. by rewrite Hs.
Qed.

Lemma analyze_unique_winner_witness :
  exists s, stress source_config !! "Stressed" = Some s /\
    @analyze ascii_runtime source_config "Exam deadline... I am SO tired"
    = Ok ("Stressed", s).
Proof.
  apply (@analyze_unique_winner ascii_runtime).
  - exact source_config_wf.
  - by_evaluation.
  - vm_compute. reflexivity.
  - intros e' He' Hne. cbn in He'. unfold EMOTIONS in He'.
    repeat (apply elem_of_cons in He' as [->|He'];
            [first [done | vm_compute; reflexivity]|]).
    by apply elem_of_nil in He'.
Defined.

Lemma stress_in_range e s :
  STRESS !! e = Some s -> e ∈ EMOTIONS /\ 0 <= s <= 100.
Proof.
  intros Hs. apply elem_of_list_to_map_2 in Hs.
  repeat (apply elem_of_cons in Hs as [[= -> ->]|Hs];
          [split; [by_evaluation | lia]|]).
  by apply elem_of_nil in Hs.
Qed.

(** X2: under the configuration of the source, whatever the text,
    [analyze] returns one of the eight emotions together with the score
    [STRESS] gives it, a number from 0 to 100. *)
Theorem analyze_source_range `{Runtime} text :
  exists best s,
    analyze source_config text = Ok (best, s) /\
    best ∈ EMOTIONS /\ STRESS !! best = Some s /\ 0 <= s <= 100.
Proof.
  pose proof source_config_wf as Hwf.
  assert (Hes : emotions source_config = "Energetic" :: tail EMOTIONS) by done.
  rewrite (analyze_eq source_config text _ _ Hwf Hes). cbv zeta.
  pose proof (max_key_first_max (keyword_hits source_config (lower text))
                "Energetic" (tail EMOTIONS)) as Hfm.
  set (b := max_loop _ "Energetic" (tail EMOTIONS)) in *.
  set (best := if 0 <? _ then b else "Neutral").
  assert (Hbest : best ∈ emotions source_config).
  { unfold best. destruct (0 <? _).
    - rewrite Hes. by apply (first_max_elem _ _ _ Hfm).
    - by_evaluation. }
  destruct (wf_stress source_config best Hwf Hbest) as [s Hs].
  exists best, s. unfold getitem. rewrite Hs. split; [done|].
  destruct (stress_in_range best s Hs). done.
Qed.

Lemma append_assoc (s1 s2 s3 : string) :
  (s1 +:+ s2) +:+ s3 = s1 +:+ (s2 +:+ s3).
Proof.
  induction s1 as [|c s1 IH]; [done|]. exact (f_equal (String c) IH).
Qed.

Lemma substring_of_trans a b s :
  substring_of a b -> substring_of b s -> substring_of a s.
Proof.
  intros (p1 & q1 & ->) (p2 & q2 & ->).
  exists (p2 +:+ p1), (q1 +:+ q2). by rewrite !append_assoc.
Qed.

(** X3: keywords are matched as substrings, not as words: a text in which
    [sleepy] occurs also matches [sleep], so it counts at least twice for
    [Tired]. *)
Theorem sleepy_counts_twice `{Runtime} text :
  substring_of "sleepy" (lower text) ->
  2 <= keyword_hits source_config (lower text) "Tired".
Proof.
  intros Hy.
  assert (Hp : substring_of "sleep" (lower text)).
  { apply (substring_of_trans _ "sleepy"); [|done].
    by exists EmptyString, "y". }
  apply occurrences_pos in Hy, Hp.
  unfold keyword_hits, matched_entries.
  replace (default [] (words source_config !! "Tired"))
    with ["tired"; "exhausted"; "sleepy"; "sleep"; "fatigue"]
    by (vm_compute; reflexivity).
  rewrite !filter_cons, filter_nil.
  repeat (match goal with
          | |- context [decide ?P] => destruct (decide P)
          end); simpl length; lia.
Qed.

Lemma sleepy_counts_twice_witness :
  2 <= keyword_hits source_config (@lower ascii_runtime "So SLEEPY...") "Tired".
Proof.
  apply (@sleepy_counts_twice ascii_runtime).
  apply contains_spec. vm_compute. reflexivity.
Defined.

(** ** The store: counts *)

Lemma compare_refl s : String.compare s s = Eq.
Proof.
  pose proof (String.compare_antisym s s) as Ha.
  destruct (String.compare s s); simpl in Ha; congruence.
Qed.

Lemma compare_lt_le a b : String.compare a b = Lt -> String.le a b.
Proof. intros Hc. unfold String.le, String.leb. by rewrite Hc. Qed.

Lemma compare_gt_lt a b : String.compare a b = Gt -> String.compare b a = Lt.
Proof. intros Hc. rewrite String.compare_antisym, Hc. done. Qed.

Lemma compare_lt_trans a b c :
  String.compare a b = Lt -> String.compare b c = Lt ->
  String.compare a c = Lt.
Proof.
  intros Hab Hbc.
  assert (Hac : String.le a c).
  { trans b; by apply compare_lt_le. }
  unfold String.le, String.leb in Hac.
  destruct (String.compare a c) eqn:Hc; [|done|done].
  apply String.compare_eq_iff in Hc as ->.
  rewrite String.compare_antisym, Hbc in Hab. done.
Qed.

Lemma dict_get_elem k n g : dict_get k g = Some n -> (k, n) ∈ g.
Proof.
  induction g as [|[k1 n1] g IH]; simpl; [done|].
  destruct (String.eqb_spec k1 k) as [->|_].
  - intros [= ->]. by left.
  - intros Hg. right. by apply IH.
Qed.

Lemma dict_get_absent k g : k ∉ dict_keys g -> dict_get k g = None.
Proof.
  induction g as [|[k1 n1] g IH]; simpl; [done|].
  intros Hk. apply not_elem_of_cons in Hk as [Hne Hk].
  destruct (String.eqb_spec k1 k) as [->|_]; [done | by apply IH].
Qed.

Lemma dict_get_above k g :
  Forall (fun x => String.compare k x = Lt) (dict_keys g) ->
  dict_get k g = None.
Proof.
  intros Hall. apply dict_get_absent. intros Hin.
  rewrite Forall_forall in Hall. specialize (Hall k Hin).
  by rewrite compare_refl in Hall.
Qed.

Lemma list_to_map_dict_get (g : list (string * Z)) k :
  (list_to_map g : gmap string Z) !! k = dict_get k g.
Proof.
  induction g as [|[k1 n1] g IH]; simpl; [done|].
  rewrite lookup_insert. destruct (String.eqb_spec k1 k) as [->|Hne].
  - by rewrite decide_True.
  - by rewrite decide_False.
Qed.

Lemma bump_keys k g x :
  x ∈ dict_keys (bump k g) -> x = k \/ x ∈ dict_keys g.
Proof.
  induction g as [|[k1 n1] g IH]; simpl.
  - intros Hx. apply list_elem_of_singleton in Hx. by left.
  - destruct (String.compare k k1) eqn:Hc; simpl; intros Hx.
    + by right.
    + apply elem_of_cons in Hx as [->|Hx]; [by left | by right].
    + apply elem_of_cons in Hx as [->|Hx]; [right; by left|].
      destruct (IH Hx) as [->|Hin]; [by left | right; by right].
Qed.

Lemma bump_sorted k g :
  StronglySorted (fun a b => String.compare a b = Lt) (dict_keys g) ->
  StronglySorted (fun a b => String.compare a b = Lt) (dict_keys (bump k g)).
Proof.
  induction g as [|[k1 n1] g IH]; simpl; intros Hs.
  - repeat constructor.
  - pose proof Hs as Hs0. apply StronglySorted_cons in Hs as [Hall Hs].
    destruct (String.compare k k1) eqn:Hc; simpl.
    + done.
    + apply StronglySorted_cons. split; [|done].
      constructor; [done|].
      eapply Forall_impl; [exact Hall|]. intros x Hx.
      by apply (compare_lt_trans _ k1).
    + apply StronglySorted_cons. split; [|by apply IH].
      apply Forall_forall. intros x Hx.
      destruct (bump_keys _ _ _ Hx) as [->|Hin].
      * by apply compare_gt_lt.
      * rewrite Forall_forall in Hall. by apply Hall.
Qed.

Lemma bump_get k k' g :
  StronglySorted (fun a b => String.compare a b = Lt) (dict_keys g) ->
  dict_get k (bump k' g)
  = if decide (k = k') then Some (default 0 (dict_get k' g) + 1)
    else dict_get k g.
Proof.
  induction g as [|[k1 n1] g IH]; simpl; intros Hs.
  - destruct (String.eqb_spec k' k) as [->|Hne].
    + by rewrite decide_True.
    + by rewrite decide_False.
  - apply StronglySorted_cons in Hs as [Hall Hs].
    destruct (String.compare k' k1) eqn:Hc; simpl.
    + apply String.compare_eq_iff in Hc as ->.
      rewrite String.eqb_refl. simpl.
      destruct (String.eqb_spec k1 k) as [->|Hne].
      * by rewrite decide_True.
      * by rewrite decide_False.
    + assert (k1 <> k') by (intros ->; by rewrite compare_refl in Hc).
      destruct (String.eqb_spec k1 k') as [|_]; [done|].
      rewrite (dict_get_above k' g).
      2:{ eapply Forall_impl; [exact Hall|]. intros x Hx.
          by apply (compare_lt_trans _ k1). }
      destruct (String.eqb_spec k' k) as [->|Hne].
      * by rewrite decide_True.
      * rewrite decide_False by done. done.
    + assert (k1 <> k') by (intros ->; by rewrite compare_refl in Hc).
      destruct (String.eqb_spec k1 k') as [|_]; [done|].
      destruct (String.eqb_spec k1 k) as [->|Hne].
      * by rewrite decide_False.
      * by apply IH.
Qed.

Lemma bump_positive k g :
  Forall (fun p => 0 < p.2) g -> Forall (fun p => 0 < p.2) (bump k g).
Proof.
  induction g as [|[k1 n1] g IH]; simpl; intros Hp.
  - repeat constructor.
  - apply Forall_cons in Hp as [Hn Hp]. simpl in Hn.
    destruct (String.compare k k1); repeat constructor; simpl; auto; lia.
Qed.

Lemma bump_sum k g :
  foldr Z.add 0 (dict_values (bump k g)) = foldr Z.add 0 (dict_values g) + 1.
Proof.
  induction g as [|[k1 n1] g IH]; simpl; [done|].
  destruct (String.compare k k1); simpl; try rewrite IH; lia.
Qed.

Lemma label_count_cons e r rows :
  label_count e (r :: rows)
  = (if decide (e_emotion r = e) then 1 else 0) + label_count e rows.
Proof.
  unfold label_count. rewrite filter_cons.
  destruct (decide (e_emotion r = e)); simpl length; lia.
Qed.

Lemma count_fold rows : forall g,
  StronglySorted (fun a b => String.compare a b = Lt) (dict_keys g) ->
  Forall (fun p => 0 < p.2) g ->
  let g' := fold_left (fun g e => bump (e_emotion e) g) rows g in
  StronglySorted (fun a b => String.compare a b = Lt) (dict_keys g') /\
  Forall (fun p => 0 < p.2) g' /\
  foldr Z.add 0 (dict_values g')
  = foldr Z.add 0 (dict_values g) + Z.of_nat (length rows) /\
  forall k, default 0 (dict_get k g')
            = default 0 (dict_get k g) + label_count k rows.
Proof.
  induction rows as [|r rows IH]; intros g Hs Hp; cbn [fold_left].
  - cbv zeta. repeat split; try done; [simpl; lia|].
    intros k. unfold label_count. simpl. lia.
  - destruct (IH (bump (e_emotion r) g)) as (Hs' & Hp' & Hsum & Hget);
      [by apply bump_sorted | by apply bump_positive|].
    cbv zeta. split; [done|]. split; [done|]. split.
    + rewrite Hsum, bump_sum. simpl length. lia.
    + intros k. rewrite Hget, bump_get, label_count_cons by done.
      destruct (decide (k = e_emotion r)) as [->|Hne].
      * rewrite decide_True by done. simpl. lia.
      * rewrite decide_False by done. lia.
Qed.

Lemma count_by_emotion_get rows k :
  dict_get k (count_by_emotion rows)
  = if 0 <? label_count k rows then Some (label_count k rows) else None.
Proof.
  destruct (count_fold rows []) as (_ & Hp & _ & Hget);
    [constructor | constructor|].
  assert (Hv : default 0 (dict_get k (count_by_emotion rows))
               = label_count k rows).
  { unfold count_by_emotion. rewrite (Hget k). simpl. lia. }
  fold (count_by_emotion rows) in Hp.
  destruct (dict_get k (count_by_emotion rows)) as [n|] eqn:Hk;
    simpl in Hv; rewrite <- Hv.
  - apply dict_get_elem in Hk. rewrite Forall_forall in Hp.
    specialize (Hp _ Hk). simpl in Hp.
    destruct (Z.ltb_spec 0 n); [done | lia].
  - done.
Qed.

(** X4: [get_counts] maps every label that some stored entry carries to
    the number of entries that carry it, and has no key for any other
    label. *)
Theorem get_counts_by_label (w : world) (rows : list entry) :
  table (disk w) = Some rows ->
  exists m : gmap string Z,
    fst (get_counts w) = Ok m /\
    forall e, m !! e = if 0 <? label_count e rows
                       then Some (label_count e rows) else None.
Proof.
  intros Ht. rewrite (get_counts_ok w rows Ht). eexists. split; [done|].
  intros e. by rewrite list_to_map_dict_get, count_by_emotion_get.
Qed.

Lemma get_counts_by_label_witness :
  exists m : gmap string Z,
    fst (get_counts
           (@run ascii_runtime
              [(source_config, noon, Quick "Sad");
               (source_config, noon, Quick "Tired");
               (source_config, evening, Quick "Tired")]
              (snd (App_init (fresh noon))))) = Ok m /\
    m !! "Tired" = Some 2 /\ m !! "Sad" = Some 1 /\ m !! "Angry" = None.
Proof.
  destruct (get_counts_by_label
              (@run ascii_runtime
                 [(source_config, noon, Quick "Sad");
                  (source_config, noon, Quick "Tired");
                  (source_config, evening, Quick "Tired")]
                 (snd (App_init (fresh noon))))
              [{| e_id := 1; e_text := "[Quick: Sad]"; e_emotion := "Sad";
                  e_stress := 65; e_ts := "2024-01-01 12:00:00" |};
               {| e_id := 2; e_text := "[Quick: Tired]"; e_emotion := "Tired";
                  e_stress := 55; e_ts := "2024-01-01 12:00:00" |};
               {| e_id := 3; e_text := "[Quick: Tired]"; e_emotion := "Tired";
                  e_stress := 55; e_ts := "2024-01-01 18:00:00" |}])
    as (m & Hm & Hget).
  - vm_compute. reflexivity.
  - exists m. split; [exact Hm|].
    rewrite (Hget "Tired"), (Hget "Sad"), (Hget "Angry").
    vm_compute. repeat split; reflexivity.
Defined.

Lemma foldr_add_perm (l1 l2 : list Z) :
  l1 ≡ₚ l2 -> foldr Z.add 0 l1 = foldr Z.add 0 l2.
Proof. induction 1; simpl; lia. Qed.

Lemma sorted_keys_NoDup (ks : list string) :
  StronglySorted (fun a b => String.compare a b = Lt) ks -> NoDup ks.
Proof.
  induction ks as [|k ks IH]; intros Hs; [constructor|].
  apply StronglySorted_cons in Hs as [Hall Hs].
  constructor; [|by apply IH].
  intros Hin. rewrite Forall_forall in Hall.
  specialize (Hall k Hin). by rewrite compare_refl in Hall.
Qed.

(** X5: the counts that [get_counts] returns add up to the number of
    stored entries. *)
Theorem get_counts_total (w : world) (rows : list entry) :
  table (disk w) = Some rows ->
  exists m : gmap string Z,
    fst (get_counts w) = Ok m /\
    foldr Z.add 0 (map snd (map_to_list m)) = Z.of_nat (length rows).
Proof.
  intros Ht. rewrite (get_counts_ok w rows Ht). eexists. split; [done|].
  destruct (count_fold rows []) as (Hs & _ & Hsum & _);
    [constructor | constructor|].
  cbv zeta in *. fold (count_by_emotion rows) in *.
  rewrite (foldr_add_perm _ (dict_values (count_by_emotion rows))).
  - rewrite Hsum. simpl. lia.
  - unfold dict_values. apply fmap_Permutation.
    apply map_to_list_to_map. by apply sorted_keys_NoDup.
Qed.

Lemma get_counts_total_witness :
  exists m : gmap string Z,
    fst (get_counts
           (@run ascii_runtime
              [(source_config, noon, Quick "Sad");
               (source_config, noon, Quick "Tired")]
              (snd (App_init (fresh noon))))) = Ok m /\
    foldr Z.add 0 (map snd (map_to_list m)) = 2.
Proof.
  apply (get_counts_total
           (@run ascii_runtime
              [(source_config, noon, Quick "Sad");
               (source_config, noon, Quick "Tired")]
              (snd (App_init (fresh noon))))
           [{| e_id := 1; e_text := "[Quick: Sad]"; e_emotion := "Sad";
               e_stress := 65; e_ts := "2024-01-01 12:00:00" |};
            {| e_id := 2; e_text := "[Quick: Tired]"; e_emotion := "Tired";
               e_stress := 55; e_ts := "2024-01-01 12:00:00" |}]).
  vm_compute. reflexivity.
Defined.

(** ** The store: reads after writes *)

Lemma order_by_ts_desc_length rows :
  length (order_by_ts_desc rows) = length rows.
Proof. by rewrite (order_by_ts_desc_perm rows). Qed.

(** X6: [get_all] returns every stored entry while there are at most 50 of
    them, and exactly 50 once there are more. *)
Theorem get_all_limit (w : world) (rows : list entry) :
  table (disk w) = Some rows ->
  exists l,
    fst (get_all w) = Ok l /\
    length l = min 50 (length rows) /\
    (forall r, r ∈ l -> r ∈ rows) /\
    ((length rows <= 50)%nat -> l ≡ₚ rows).
Proof.
  intros Ht. rewrite (get_all_ok w rows Ht). eexists. split; [done|].
  split; [by rewrite length_take, order_by_ts_desc_length|]. split.
  - intros r Hr. rewrite <- (order_by_ts_desc_perm rows).
    by apply (subseteq_take 50).
  - intros Hle. rewrite take_ge by (rewrite order_by_ts_desc_length; lia).
    apply order_by_ts_desc_perm.
Qed.

Lemma get_all_limit_witness :
  exists l,
    fst (get_all
           (@run ascii_runtime
              [(source_config, noon, Quick "Sad");
               (source_config, evening, Quick "Tired")]
              (snd (App_init (fresh noon))))) = Ok l /\
    length l = 2%nat.
Proof.
  destruct (get_all_limit
              (@run ascii_runtime
                 [(source_config, noon, Quick "Sad");
                  (source_config, evening, Quick "Tired")]
                 (snd (App_init (fresh noon))))
              [{| e_id := 1; e_text := "[Quick: Sad]"; e_emotion := "Sad";
                  e_stress := 65; e_ts := "2024-01-01 12:00:00" |};
               {| e_id := 2; e_text := "[Quick: Tired]"; e_emotion := "Tired";
                  e_stress := 55; e_ts := "2024-01-01 18:00:00" |}])
    as (l & Hl & Hlen & _).
  - vm_compute. reflexivity.
  - exists l. split; [exact Hl | exact Hlen].
Defined.

(** X7: after [clear_all] every read returns nothing, and the next entry
    recorded does not reuse an id: it gets the successor of the last id
    ever given. *)
Theorem clear_all_then_reads (w : world) (rows : list entry) :
  table (disk w) = Some rows ->
  fst ((clear_all ;;; get_all) w) = Ok [] /\
  fst ((clear_all ;;; get_today) w) = Ok [] /\
  fst ((clear_all ;;; get_counts) w) = Ok ∅ /\
  forall text emotion stress,
    stored (snd ((clear_all ;;; save_entry text emotion stress) w))
    = [{| e_id := seq (disk w) + 1; e_text := text; e_emotion := emotion;
          e_stress := stress; e_ts := utc_now (now w) |}].
Proof.
  intros Ht.
  pose proof (clear_all_ok w rows Ht) as Hc.
  split; [|split; [|split]].
  - erewrite bind_ok by exact Hc. by erewrite get_all_ok by reflexivity.
  - erewrite bind_ok by exact Hc. by erewrite get_today_ok by reflexivity.
  - erewrite bind_ok by exact Hc. by erewrite get_counts_ok by reflexivity.
  - intros text emotion stress. erewrite bind_ok by exact Hc.
    by erewrite save_entry_ok by reflexivity.
Qed.

Lemma clear_all_then_reads_witness :
  let w := @run ascii_runtime [(source_config, noon, Quick "Sad")]
             (snd (App_init (fresh noon))) in
  fst ((clear_all ;;; get_all) w) = Ok [] /\
  stored (snd ((clear_all ;;; save_entry "again" "Sad" 65) w))
  = [{| e_id := 2; e_text := "again"; e_emotion := "Sad"; e_stress := 65;
        e_ts := "2024-01-01 12:00:00" |}].
Proof.
  cbv zeta.
  destruct (clear_all_then_reads
              (@run ascii_runtime [(source_config, noon, Quick "Sad")]
                 (snd (App_init (fresh noon))))
              [{| e_id := 1; e_text := "[Quick: Sad]"; e_emotion := "Sad";
                  e_stress := 65; e_ts := "2024-01-01 12:00:00" |}])
    as (Hall & _ & _ & Hnext).
  - vm_compute. reflexivity.
  - split; [exact Hall | exact (Hnext "again" "Sad" 65)].
Defined.

(** X8: an entry recorded while the UTC date equals the local date is the
    last of today's entries at once, after those that were there. *)
Theorem save_entry_then_today (w : world) (rows : list entry)
    (text emotion : string) (stress : Z) :
  table (disk w) = Some rows ->
  DATE (utc_now (now w)) = local_today (now w) ->
  fst ((save_entry text emotion stress ;;; get_today) w)
  = Ok (filter (fun e => DATE (e_ts e) = local_today (now w)) rows
        ++ [{| e_id := seq (disk w) + 1; e_text := text; e_emotion := emotion;
               e_stress := stress; e_ts := utc_now (now w) |}]).
Proof.
  intros Ht Hdate.
  erewrite bind_ok by (by apply save_entry_ok).
  erewrite get_today_ok by reflexivity.
  unfold committed. proj. rewrite filter_app, filter_cons_True by done. done.
Qed.

Lemma save_entry_then_today_witness :
  fst ((save_entry "fine" "Neutral" 35 ;;; get_today)
         (snd (App_init (fresh noon))))
  = Ok [{| e_id := 1; e_text := "fine"; e_emotion := "Neutral";
           e_stress := 35; e_ts := "2024-01-01 12:00:00" |}].
Proof.
  apply (save_entry_then_today (snd (App_init (fresh noon))) []).
  - vm_compute. reflexivity.
  - vm_compute. reflexivity.
Defined.

(** ** Invariants of the world *)

Lemma preserves_bind {A B} P (m : M A) (k : A -> M B) :
  preserves P m -> (forall a, preserves P (k a)) -> preserves P (bind m k).
Proof.
  intros Hm Hk w HP. unfold bind. specialize (Hm w HP).
  destruct (m w) as [[a|e] w1]; simpl in *; [by apply Hk | done].
Qed.

Lemma preserves_ret {A} P (a : A) : preserves P (ret a).
Proof. by intros w. Qed.

Lemma preserves_raise {A} P e : preserves P (@raise A e).
Proof. by intros w. Qed.

Lemma preserves_lift {A} P (r : result A) : preserves P (lift r).
Proof. by intros w. Qed.

Lemma preserves_get_world P : preserves P get_world.
Proof. by intros w. Qed.

Lemma preserves_date_today P : preserves P date_today.
Proof. by intros w. Qed.

Lemma preserves_db_exec P q fetch : stable P -> preserves P (db_exec q fetch).
Proof.
  intros HP w Hw.
  destruct (run_query (utc_now (now w)) q (disk w)) as [[d f]|e] eqn:Hrun.
  - rewrite (db_exec_ok q fetch w d f Hrun). by eapply stable_commit.
  - rewrite (db_exec_raise q fetch w e Hrun). by eapply stable_abandon.
Qed.

Ltac preserves HP :=
  repeat first
    [ apply preserves_ret | apply preserves_raise | apply preserves_lift
    | apply preserves_get_world | apply preserves_date_today
    | apply preserves_db_exec; exact HP
    | (intros ? ?; by apply (stable_tab _ HP))
    | (intros ? ?; by apply (stable_dark _ HP))
    | (intros ? ?; by apply (stable_dirs _ HP))
    | (intros ? ?; by apply (stable_files _ HP))
    | apply preserves_bind; [| intros ?] ].

Lemma preserves_get_counts P : stable P -> preserves P get_counts.
Proof. intros HP. unfold get_counts. preserves HP. Qed.

Lemma preserves_get_all P : stable P -> preserves P get_all.
Proof. intros HP. unfold get_all. preserves HP. Qed.

Lemma preserves_get_today P : stable P -> preserves P get_today.
Proof. intros HP. unfold get_today. preserves HP. Qed.

Lemma preserves_save_entry P text emotion stress :
  stable P -> preserves P (save_entry text emotion stress).
Proof. intros HP. unfold save_entry. preserves HP. Qed.

Lemma preserves_clear_all P : stable P -> preserves P clear_all.
Proof. intros HP. unfold clear_all. preserves HP. Qed.

Lemma preserves_build P : stable P -> preserves P build.
Proof.
  intros HP. unfold build. apply preserves_bind; [apply preserves_get_world|].
  intros w0. destruct (tab w0) as [|[|[|[|n]]]]; simpl.
  - by apply preserves_get_counts || (unfold render_quick, update_chart; preserves HP).
  - apply preserves_ret.
  - unfold render_analytics. preserves HP.
  - unfold render_reports. preserves HP.
  - apply preserves_raise.
Qed.

Lemma preserves_switch P i : stable P -> preserves P (switch i).
Proof.
  intros HP. unfold switch. apply preserves_bind.
  - intros ? ?. by apply (stable_tab _ HP).
  - intros _. by apply preserves_build.
Qed.

Lemma preserves_save_report `{Runtime} P : stable P -> preserves P save_report.
Proof.
  intros HP. unfold save_report.
  apply preserves_bind; [by apply preserves_get_today|].
  intros [|e es]; [apply preserves_ret|]. preserves HP.
Qed.

Lemma preserves_act `{Runtime} P cfg a : stable P -> preserves P (act cfg a).
Proof.
  intros HP. destruct a as [e|entered|entered| |yes| |i]; cbn [act].
  - unfold quick, update_chart. preserves HP.
  - unfold analyze_q, update_chart.
    destruct (decide (strip entered = EmptyString)); preserves HP.
  - unfold analyze_t.
    destruct (decide (strip entered = EmptyString)); preserves HP.
  - unfold save_r. apply preserves_bind; [by apply preserves_save_report|].
    intros _. apply preserves_ret.
  - destruct yes; cbn [clear]; [|apply preserves_ret].
    apply preserves_bind; [by apply preserves_clear_all|]. intros _.
    apply preserves_bind; [apply preserves_get_world|]. intros w0.
    by apply preserves_switch.
  - unfold toggle. apply preserves_bind.
    + intros ? ?. by apply (stable_dark _ HP).
    + intros _. apply preserves_bind; [apply preserves_get_world|].
      intros w0. by apply preserves_switch.
  - by apply preserves_switch.
Qed.

Lemma preserves_run `{Runtime} P trace w :
  stable P -> P w -> P (run trace w).
Proof.
  intros HP. revert w. induction trace as [|[[cfg clk] a] trace IH];
    intros w Hw; [done|].
  cbn [run fold_left]. apply IH. unfold step.
  apply preserves_act; [done|]. by apply (stable_clock _ HP).
Qed.

Lemma run_query_total now q db :
  is_Some (table db) ->
  exists d f, run_query now q db = Ok (d, f) /\ is_Some (table d).
Proof.
  intros [rows Ht]. unfold run_query. rewrite Ht.
  destruct q; eexists _, _; (split; [reflexivity|]); simpl; eauto.
Qed.

(** What a statement does to ids and counter. *)
Lemma run_query_ids now q db d f s0 (R0 : list entry) :
  run_query now q db = Ok (d, f) ->
  ids_ok db -> s0 <= seq db ->
  Forall (fun r => r ∈ R0 \/ s0 < e_id r) (default [] (table db)) ->
  ids_ok d /\ s0 <= seq d /\
  Forall (fun r => r ∈ R0 \/ s0 < e_id r) (default [] (table d)).
Proof.
  unfold run_query, ids_ok. intros Hrun [Hs Hle] Hs0 Hnew.
  destruct q, (table db) as [rows|] eqn:Ht; simpl in *;
    try discriminate; injection Hrun as <- <-; simpl;
    try (rewrite ?Ht; simpl; repeat split; by (done || constructor || lia)).
  repeat split.
  - rewrite map_app. apply StronglySorted_app. split; [|split; [done|]].
    + intros x y Hx Hy. simpl in Hy. apply list_elem_of_singleton in Hy as ->.
      apply list_elem_of_fmap in Hx as (r & -> & Hr).
      rewrite Forall_forall in Hle. specialize (Hle r Hr). lia.
    + repeat constructor.
  - apply Forall_app. split.
    + eapply Forall_impl; [exact Hle|]. simpl. intros; lia.
    + repeat constructor. simpl. lia.
  - lia.
  - apply Forall_app. split; [done|].
    constructor; [right; simpl; lia | constructor].
Qed.

Lemma ids_stable s0 (R0 : list entry) :
  stable (fun w => ids_ok (disk w) /\ s0 <= seq (disk w) /\
                   Forall (fun r => r ∈ R0 \/ s0 < e_id r) (stored w)).
Proof.
  split; try done.
  intros w q d f (Hok & Hs0 & Hnew) Hrun.
  by apply (run_query_ids _ _ _ _ _ _ _ Hrun).
Qed.

Lemma ids_sorted_NoDup (l : list Z) : StronglySorted Z.lt l -> NoDup l.
Proof.
  induction l as [|x l IH]; intros Hs; [constructor|].
  apply StronglySorted_cons in Hs as [Hall Hs]. constructor; [|by apply IH].
  intros Hin. rewrite Forall_forall in Hall. specialize (Hall x Hin). lia.
Qed.

(** X9: ids are never reused.  Whatever the user does, the ids of the
    stored rows stay distinct and increasing, and every row that was not
    there at the start has an id greater than the counter was then, even
    after the table has been cleared. *)
Theorem ids_never_reused `{Runtime}
    (trace : list (config * clock * action)) (w : world) :
  ids_ok (disk w) ->
  ids_ok (disk (run trace w)) /\
  NoDup (map e_id (stored (run trace w))) /\
  seq (disk w) <= seq (disk (run trace w)) /\
  forall r, r ∈ stored (run trace w) ->
    r ∈ stored w \/ seq (disk w) < e_id r.
Proof.
  intros Hok.
  destruct (preserves_run _ trace w (ids_stable (seq (disk w)) (stored w)))
    as (Hok' & Hseq & Hnew).
  - split; [done|]. split; [lia|].
    apply Forall_forall. intros r Hr. by left.
  - split; [done|]. split; [|split; [done|]].
    + apply ids_sorted_NoDup. by destruct Hok'.
    + by apply Forall_forall.
Qed.

Lemma ids_never_reused_witness :
  let w := @run ascii_runtime
             [(source_config, noon, Quick "Sad"); (source_config, noon, Clear true);
              (source_config, evening, Quick "Tired")]
             (snd (App_init (fresh noon))) in
  NoDup (map e_id (stored w)) /\ 0 <= seq (disk w).
Proof.
  cbv zeta.
  destruct (@ids_never_reused ascii_runtime
              [(source_config, noon, Quick "Sad"); (source_config, noon, Clear true);
               (source_config, evening, Quick "Tired")]
              (snd (App_init (fresh noon)))) as (_ & Hnd & Hseq & _).
  - split; vm_compute; constructor.
  - split; [exact Hnd | exact Hseq].
Defined.

Example id_after_clear :
  stored (@run ascii_runtime
            [(source_config, noon, Quick "Sad"); (source_config, noon, Clear true);
             (source_config, evening, Quick "Tired")]
            (snd (App_init (fresh noon))))
  = [{| e_id := 2; e_text := "[Quick: Tired]"; e_emotion := "Tired";
        e_stress := 55; e_ts := "2024-01-01 18:00:00" |}].
Proof. vm_compute. reflexivity. Qed.

(** *** No database error once the table exists *)


Lemma quiet_bind {A B} (m : M A) (k : A -> M B) :
  quiet m -> (forall a, quiet (k a)) -> quiet (bind m k).
Proof.
  intros Hm Hk w Ht. unfold bind. destruct (Hm w Ht) as [Herr Ht'].
  destruct (m w) as [[a|e] w1]; simpl in *; [by apply Hk|].
  split; [|done]. intros [msg [= ->]]. apply Herr. by exists msg.
Qed.

Lemma quiet_ret {A} (a : A) : quiet (ret a).
Proof. intros w Ht. split; [|done]. intros [msg Hm]. discriminate. Qed.

Lemma quiet_lift {A} (r : result A) : ~ db_error r -> quiet (lift r).
Proof. by intros Hr w Ht. Qed.

Lemma quiet_get_world : quiet get_world.
Proof. intros w Ht. split; [|done]. intros [msg Hm]. discriminate. Qed.

Lemma quiet_date_today : quiet date_today.
Proof. intros w Ht. split; [|done]. intros [msg Hm]. discriminate. Qed.

Lemma quiet_set_tab i : quiet (set_tab i).
Proof. intros w Ht. split; [|done]. intros [msg Hm]. discriminate. Qed.

Lemma quiet_flip_dark : quiet flip_dark.
Proof. intros w Ht. split; [|done]. intros [msg Hm]. discriminate. Qed.

Lemma quiet_makedirs p : quiet (makedirs p).
Proof. intros w Ht. split; [|done]. intros [msg Hm]. discriminate. Qed.

Lemma quiet_write_file p c : quiet (write_file p c).
Proof. intros w Ht. split; [|done]. intros [msg Hm]. discriminate. Qed.

Lemma quiet_index_error {A} msg : quiet (@raise A (IndexError msg)).
Proof. intros w Ht. split; [|done]. intros [msg' Hm]. discriminate. Qed.

Lemma quiet_db_exec q fetch : quiet (db_exec q fetch).
Proof.
  intros w Ht.
  destruct (run_query_total (utc_now (now w)) q (disk w) Ht)
    as (d & f & Hrun & Hd).
  rewrite (db_exec_ok q fetch w d f Hrun). split; [|done].
  intros [msg Hm]. discriminate.
Qed.

Lemma rbind_db_error {A B} (r : result A) (k : A -> result B) :
  ~ db_error r -> (forall a, ~ db_error (k a)) -> ~ db_error (rbind r k).
Proof.
  intros Hr Hk. destruct r as [a|e]; simpl; [apply Hk|].
  intros [msg [= ->]]. apply Hr. by exists msg.
Qed.

Lemma getitem_db_error {V} (d : gmap string V) k : ~ db_error (getitem d k).
Proof.
  unfold getitem. destruct (d !! k); intros [msg Hm]; discriminate.
Qed.

Lemma max_key_db_error {A} (f : A -> Z) l : ~ db_error (max_key f l).
Proof. destruct l; intros [msg Hm]; discriminate. Qed.

Lemma ok_db_error {A} (a : A) : ~ db_error (Ok a).
Proof. intros [msg Hm]. discriminate. Qed.

Lemma scores_from_db_error cfg low es : forall d,
  ~ db_error (scores_from cfg low es d).
Proof.
  induction es as [|e es IH]; intros d; simpl; [apply ok_db_error|].
  apply rbind_db_error; [apply getitem_db_error|]. intros ws. apply IH.
Qed.

Lemma analyze_db_error `{Runtime} cfg text : ~ db_error (analyze cfg text).
Proof.
  unfold analyze. apply rbind_db_error; [apply scores_from_db_error|].
  intros scores. apply rbind_db_error; [apply max_key_db_error|].
  intros top. apply rbind_db_error.
  - destruct (0 <? top); [apply max_key_db_error | apply ok_db_error].
  - intros best. apply rbind_db_error; [apply getitem_db_error|].
    intros s. apply ok_db_error.
Qed.

Lemma report_text_db_error `{Runtime} today entries :
  ~ db_error (report_text today entries).
Proof.
  unfold report_text. apply rbind_db_error.
  - unfold average, floordiv. destruct (_ =? 0); intros [msg Hm]; discriminate.
  - intros avg. apply rbind_db_error; [apply max_key_db_error|].
    intros d. apply ok_db_error.
Qed.

Ltac quiet :=
  repeat first
    [ apply quiet_ret | apply quiet_get_world | apply quiet_date_today
    | apply quiet_set_tab | apply quiet_flip_dark | apply quiet_makedirs
    | apply quiet_write_file | apply quiet_index_error | apply quiet_db_exec
    | apply quiet_lift;
        first [ apply getitem_db_error | apply analyze_db_error
              | apply report_text_db_error ]
    | apply quiet_bind; [| intros ?] ].







(** ** The actions of the application *)




Lemma lstrip_all_space s : all_space s = true -> lstrip s = EmptyString.
Proof.
  induction s as [|c s IH]; simpl; [done|].
  intros Hs. apply andb_true_iff in Hs as [Hc Hs]. rewrite Hc. by apply IH.
Qed.

Lemma strip_all_space s : all_space s = true -> strip_ascii s = EmptyString.
Proof. intros Hs. unfold strip_ascii. by rewrite lstrip_all_space. Qed.

(** X12: when the text box holds nothing but white space, neither
    analysis does anything: no entry, no connection, nothing raised. *)
Theorem blank_text_is_ignored cfg (entered : string) (w : world) :
  all_space entered = true ->
  @analyze_q ascii_runtime cfg entered w = (Ok tt, w) /\
  @analyze_t ascii_runtime cfg entered w = (Ok tt, w).
Proof.
  intros Hs. unfold analyze_q, analyze_t.
  change (@strip ascii_runtime entered) with (strip_ascii entered).
  rewrite (strip_all_space entered Hs). by rewrite decide_True.
Qed.

Lemma blank_text_is_ignored_witness :
  @analyze_q ascii_runtime source_config
    (String " " (String (ascii_of_nat 10) EmptyString)) (fresh noon)
  = (Ok tt, fresh noon).
Proof.
  apply (blank_text_is_ignored source_config
           (String " " (String (ascii_of_nat 10) EmptyString)) (fresh noon)).
  vm_compute. reflexivity.
Defined.




(** X14: only a quick entry, an analysis and a confirmed clear write to
    the database: saving the report, switching tabs, toggling the theme
    and a declined clear leave the database file as it was. *)
Theorem other_actions_keep_database `{Runtime} cfg (a : action) (w : world) :
  ~ creates a -> a <> Clear true ->
  disk (snd (act cfg a w)) = disk w.
Proof.
  intros Hc Hclear.
  destruct a as [e|entered|entered| |yes| |i]; cbn [act];
    try (by destruct Hc).
  - unfold save_r. apply keeps_bind; [apply keeps_save_report | auto with keeps].
  - destruct yes; [done|]. reflexivity.
  - unfold toggle. apply keeps_bind; [auto with keeps|]. intros _.
    apply keeps_bind; [auto with keeps|]. intros w0. apply keeps_switch.
  - apply keeps_switch.
Qed.

Lemma other_actions_keep_database_witness :
  let w := @run ascii_runtime [(source_config, noon, Quick "Sad")]
             (snd (App_init (fresh noon))) in
  disk (snd (@act ascii_runtime source_config SaveR w)) = disk w.
Proof.
  cbv zeta. apply (@other_actions_keep_database ascii_runtime).
  - simpl. tauto.
  - discriminate.
Defined.

(** ** The report file *)

Ltac proj_in H :=
  cbn [disk conns next_conn log now dirs files tab dark fst snd] in H.

Lemma save_report_fields `{Runtime} (w : world) (rows : list entry) :
  table (disk w) = Some rows ->
  disk (snd (save_report w)) = disk w /\
  now (snd (save_report w)) = now w /\
  match filter (fun e => DATE (e_ts e) = local_today (now w)) rows with
  | [] =>
      fst (save_report w) = Ok None /\
      files (snd (save_report w)) = files w /\
      dirs (snd (save_report w)) = dirs w
  | entries =>
      exists text,
        report_text (local_today (now w)) entries = Ok text /\
        fst (save_report w) = Ok (Some true) /\
        files (snd (save_report w))
        = <[report_path (local_today (now w)) := text]> (files w) /\
        dirs (snd (save_report w)) = {[REPORTS]} ∪ dirs w
  end.
Proof.
  intros Ht. unfold save_report.
  erewrite bind_ok by (by apply get_today_ok).
  destruct (filter _ rows) as [|e es] eqn:Hf; [done|].
  destruct (report_text_ok (local_today (now w)) (e :: es))
    as (avg & d & _ & _ & Htext); [done|].
  unfold bind, makedirs, date_today, lift, write_file, ret, committed.
  proj. rewrite Htext. proj. split; [done|]. split; [done|].
  eexists. done.
Qed.

(** X15: generating the report again on the same day, with the entries
    unchanged, gives the same outcome and leaves the report directory as
    the first generation left it: the file of the day is overwritten with
    the same text, no other file appears. *)
Theorem save_report_again `{Runtime} (w : world) (rows : list entry) :
  table (disk w) = Some rows ->
  let w1 := snd (save_report w) in
  fst (save_report w1) = fst (save_report w) /\
  files (snd (save_report w1)) = files w1 /\
  dirs (snd (save_report w1)) = dirs w1 /\
  disk (snd (save_report w1)) = disk w.
Proof.
  intros Ht. cbv zeta.
  destruct (save_report_fields w rows Ht) as (Hd & Hn & H1).
  generalize dependent (snd (save_report w)). intros w1 Hd Hn H1.
  assert (Ht1 : table (disk w1) = Some rows) by (by rewrite Hd).
  destruct (save_report_fields w1 rows Ht1) as (Hd2 & _ & H2).
  rewrite Hn in H2.
  destruct (filter _ rows) as [|e es].
  - destruct H1 as (-> & _ & _). destruct H2 as (-> & -> & ->).
    by rewrite Hd2, Hd.
  - destruct H1 as (text & Htext & -> & Hf & Hdir).
    destruct H2 as (text' & Htext' & -> & -> & ->).
    assert (text' = text) as -> by congruence.
    rewrite Hf, Hdir, Hd2, Hd, insert_insert_eq.
    by rewrite (assoc_L (∪)), union_idemp_L.
Qed.

Lemma save_report_again_witness :
  let w := @run ascii_runtime [(source_config, noon, Quick "Sad")]
             (snd (App_init (fresh noon))) in
  let w1 := snd (@save_report ascii_runtime w) in
  fst (@save_report ascii_runtime w1) = fst (@save_report ascii_runtime w) /\
  files (snd (@save_report ascii_runtime w1)) = files w1 /\
  dirs (snd (@save_report ascii_runtime w1)) = dirs w1 /\
  disk (snd (@save_report ascii_runtime w1)) = disk w.
Proof.
  cbv zeta.
  apply (@save_report_again ascii_runtime
           (@run ascii_runtime [(source_config, noon, Quick "Sad")]
              (snd (App_init (fresh noon))))
           [{| e_id := 1; e_text := "[Quick: Sad]"; e_emotion := "Sad";
               e_stress := 65; e_ts := "2024-01-01 12:00:00" |}]).
  vm_compute. reflexivity.
Defined.

(** X16: without the table, [save_report] ends with the database error of
    its query and touches neither the report directory nor any file. *)
Theorem save_report_without_table `{Runtime} (w : world) :
  table (disk w) = None ->
  fst (save_report w) = Raise no_such_table /\
  files (snd (save_report w)) = files w /\
  dirs (snd (save_report w)) = dirs w.
Proof.
  intros Ht. unfold save_report.
  erewrite bind_raise by (by apply get_today_raise). done.
Qed.

Lemma save_report_without_table_witness :
  fst (@save_report ascii_runtime (fresh noon)) = Raise no_such_table /\
  files (snd (@save_report ascii_runtime (fresh noon))) = files (fresh noon) /\
  dirs (snd (@save_report ascii_runtime (fresh noon))) = dirs (fresh noon).
Proof.
  apply (@save_report_without_table ascii_runtime (fresh noon)). reflexivity.
Defined.

(** *** The time of an entry in a report line *)



Lemma split_nonempty sep s : split sep s <> [].
Proof.
  destruct s as [|c s]; cbn [split]; [done|].
  destruct (Ascii.eqb c sep); [done|]. by destruct (split sep s).
Qed.





(** [split] loses nothing: joining the pieces with the separator
    gives the string back, and no piece contains the separator. *)
Theorem split_join (sep : ascii) (s : string) :
  String.concat (String sep EmptyString) (split sep s) = s /\
  Forall (fun piece => contains (String sep EmptyString) piece = false)
         (split sep s).
Proof.
  induction s as [|c s [IHc IHf]]; [by repeat constructor|].
  cbn [split]. pose proof (split_nonempty sep s) as Hne.
  destruct (Ascii.eqb_spec c sep) as [->|Hc].
  - split; [|by constructor].
    destruct (split sep s) as [|h t]; [done|].
    change (String.concat (String sep EmptyString) (EmptyString :: h :: t))
      with (String sep (String.concat (String sep EmptyString) (h :: t))).
    by rewrite IHc.
  - destruct (split sep s) as [|h t]; [done|].
    apply Forall_cons in IHf as [Hh Ht]. split.
    + rewrite <- IHc. by destruct t.
    + constructor; [|done]. cbn [contains]. rewrite Hh.
      simpl. destruct (ascii_dec sep c) as [->|_]; [done|]. done.
Qed.

Lemma split_join_witness :
  String.concat " " (split " " "2024-01-01 09:15:42") = "2024-01-01 09:15:42".
Proof. apply (split_join " " "2024-01-01 09:15:42"). Defined.

(** ** Labels and chart colours *)

Lemma count_keys rows : forall g k,
  k ∈ dict_keys (fold_left (fun g e => bump (e_emotion e) g) rows g) ->
  k ∈ dict_keys g \/ exists r, r ∈ rows /\ e_emotion r = k.
Proof.
  induction rows as [|r rows IH]; intros g k Hk; cbn [fold_left] in Hk.
  - by left.
  - destruct (IH _ _ Hk) as [Hin|(r' & Hr' & <-)].
    + destruct (bump_keys _ _ _ Hin) as [->|Hg]; [|by left].
      right. exists r. split; [by left | done].
    + right. exists r'. split; [by right | done].
Qed.

Lemma color_of_emotion e : e ∈ EMOTIONS -> is_Some (COLORS !! e).
Proof.
  intros He. unfold EMOTIONS in He.
  repeat (apply elem_of_cons in He as [->|He];
          [eexists; vm_compute; reflexivity|]).
  by apply elem_of_nil in He.
Qed.

Lemma chart_colors_ok keys :
  Forall (fun e => e ∈ EMOTIONS) keys ->
  exists cs, chart_colors keys = Ok cs /\ length cs = length keys.
Proof.
  induction keys as [|e keys IH]; intros Hk; [by exists []|].
  apply Forall_cons in Hk as [He Hk].
  destruct (color_of_emotion e He) as [c Hc].
  destruct (IH Hk) as (cs & Hcs & Hlen).
  exists (c :: cs). cbn [chart_colors]. unfold getitem.
  rewrite Hc, Hcs. simpl. by rewrite Hlen.
Qed.


(** X18: as long as the configuration is that of the source, every label
    the application stores is one of the eight emotions, so the charts
    find a colour for every label they draw. *)
Theorem stored_labels_have_colors `{Runtime}
    (trace : list (config * clock * action)) (w : world) :
  Forall (fun s => s.1.1 = source_config) trace ->
  Forall (fun r => e_emotion r ∈ EMOTIONS) (stored w) ->
  Forall (fun r => e_emotion r ∈ EMOTIONS) (stored (run trace w)) /\
  exists cs,
    chart_colors (dict_keys (count_by_emotion (stored (run trace w)))) = Ok cs.
Proof.
  intros Hcfg Hw.
  assert (Hall : Forall (fun r => e_emotion r ∈ EMOTIONS) (stored (run trace w))).
  { induction trace as [|[[cfg clk] a] trace IH] using rev_ind; [done|].
    apply Forall_app in Hcfg as [Hcfg Hlast].
    apply Forall_cons in Hlast as [Hsrc _]. simpl in Hsrc. subst cfg.
    rewrite run_snoc.
    destruct (step_stored source_config clk a (run trace w))
      as [->|[->|(_ & r & -> & Hs)]]; [by apply IH | constructor|].
    apply Forall_app. split; [by apply IH|].
    constructor; [|constructor].
    by destruct (stress_in_range _ _ Hs). }
  split; [done|].
  destruct (chart_colors_ok
              (dict_keys (count_by_emotion (stored (run trace w)))))
    as (cs & Hcs & _); [|by exists cs].
  apply Forall_forall. intros k Hk.
  destruct (count_keys _ _ _ Hk) as [Hin|(r & Hr & <-)];
    [by apply elem_of_nil in Hin|].
  rewrite Forall_forall in Hall. by apply Hall.
Qed.

Lemma stored_labels_have_colors_witness :
  exists cs,
    chart_colors
      (dict_keys
         (count_by_emotion
            (stored
               (@run ascii_runtime
                  [(source_config, noon, Quick "Sad");
                   (source_config, evening, AnalyzeQ "I can not sleep")]
                  (snd (App_init (fresh noon))))))) = Ok cs.
Proof.
  apply (@stored_labels_have_colors ascii_runtime).
  - repeat constructor.
  - vm_compute. constructor.
Defined.

(** ** Initialisation *)

(** X19: [init_db] always succeeds, leaves the table in place and never
    touches rows or the id counter that are already there. *)
Theorem init_db_keeps_rows (w : world) :
  fst (init_db w) = Ok tt /\
  is_Some (table (disk (snd (init_db w)))) /\
  stored (snd (init_db w)) = stored w /\
  seq (disk (snd (init_db w))) = seq (disk w).
Proof.
  unfold init_db.
  destruct (table (disk w)) as [rows|] eqn:Ht.
  - erewrite bind_ok
      by (apply (db_exec_ok CreateTable false w (disk w) (Rows []));
          unfold run_query; by rewrite Ht).
    unfold ret, committed, stored. proj. rewrite Ht. by eauto.
  - erewrite bind_ok
      by (apply (db_exec_ok CreateTable false w
                   {| table := Some []; seq := seq (disk w) |} (Rows []));
          unfold run_query; by rewrite Ht).
    unfold ret, committed, stored. proj. rewrite Ht. simpl. by eauto.
Qed.



